(** * RemoteEye2018 / GazeEstimationCpp: the test client [main.cpp]

    A shallow embedding of the one-camera test client: the point-of-interest
    reducer, the screen conversion, the pointer-table adapter, the
    six-variable applicator and the evaluation loop of [run_onecamera].

    The client computes on C++ [double]s.  Every definition is written once,
    over a scalar interface [Scalar], and read at two instances:
    - [float], the binary64 numbers of the machine, which is what the compiled
      client computes on: every operation is rounded to binary64 on its own
      (no extended intermediate precision, no fused multiply-add);
    - the real numbers, the exact arithmetic in which the geometry is
      usually stated.
    Statements that hold for any scalar type are proved once; statements that
    depend on exact arithmetic are proved over the reals and tested on
    binary64. *)

From Stdlib Require Import ZArith Reals Lra Floats.
From stdpp Require Import base option list gmap.

Set Default Proof Using "Type".

(** The reals under a name that the bundle's field [R] cannot hide. *)
Abbreviation real := Rdefinitions.R.

(** ** Scalars *)

Declare Scope scalar_scope.
Delimit Scope scalar_scope with S.

Class Scalar (T : Type) : Type := {
  s_of_Z : Z -> T;          (* an integer literal converted to [double] *)
  s_add : T -> T -> T;
  s_sub : T -> T -> T;
  s_mul : T -> T -> T;
  s_div : T -> T -> T;
  s_neg : T -> T;
  s_sqrt : T -> T;
  s_leb : T -> T -> bool;   (* [x <= y] *)
  s_ltb : T -> T -> bool    (* [x < y] *)
}.

Infix "+" := s_add : scalar_scope.
Infix "-" := s_sub : scalar_scope.
Infix "*" := s_mul : scalar_scope.
Infix "/" := s_div : scalar_scope.
Notation "- x" := (s_neg x) : scalar_scope.

(** A decimal literal [n / d] of the source, e.g. [24.5] is [dec 245 10].
    On binary64 the quotient of two exactly representable integers is
    correctly rounded, so [dec] yields the double the C++ literal denotes. *)
Definition dec `{Scalar T} (n d : Z) : T := (s_of_Z n / s_of_Z d)%S.

Definition R_leb (x y : real) : bool := if Rle_dec x y then true else false.
Definition R_ltb (x y : real) : bool := if Rlt_dec x y then true else false.

#[export] Instance real_scalar : Scalar real := {|
  s_of_Z := IZR;
  s_add := Rplus;
  s_sub := Rminus;
  s_mul := Rmult;
  s_div := Rdiv;
  s_neg := Ropp;
  s_sqrt := R_sqrt.sqrt;
  s_leb := R_leb;
  s_ltb := R_ltb
|}.

(** The integer [z] rounded to the nearest binary64 number. *)
Definition float_of_Z (z : Z) : float :=
  SF2Prim (binary_normalize prec emax z 0 false).

#[export] Instance float_scalar : Scalar float := {|
  s_of_Z := float_of_Z;
  s_add := PrimFloat.add;
  s_sub := PrimFloat.sub;
  s_mul := PrimFloat.mul;
  s_div := PrimFloat.div;
  s_neg := PrimFloat.opp;
  s_sqrt := PrimFloat.sqrt;
  s_leb := PrimFloat.leb;
  s_ltb := PrimFloat.ltb
|}.

(** ** Vectors

    [Vec2], [Vec3] and their operators come from [Utils.hpp], which is not
    part of the sources at hand. *)

Section Vectors.
Context {T : Type} `{Scalar T}.

(** Modelled from the spec: the [Vec2] of the missing [Utils.hpp], a pair
    of coordinates built by [make_vec2]; [v[0]] and [v[1]] of the source
    are the two fields. *)
Record Vec2 : Type := make_vec2 { v2_0 : T; v2_1 : T }.

(** Modelled from the spec: the [Vec3] of the missing [Utils.hpp], built by
    [make_vec3]; [v[0]], [v[1]] and [v[2]] are the three fields. *)
Record Vec3 : Type := make_vec3 { v3_0 : T; v3_1 : T; v3_2 : T }.

(** Modelled from the spec: the operators of the missing [Utils.hpp] that
    [main.cpp] uses: [a + b], [a - b], [-a] and [k * a] on [Vec3], [a - b]
    and [length(a)] on [Vec2], all coordinate by coordinate. *)
Definition vec3_add (a b : Vec3) : Vec3 :=
  make_vec3 (v3_0 a + v3_0 b)%S (v3_1 a + v3_1 b)%S (v3_2 a + v3_2 b)%S.

Definition vec3_sub (a b : Vec3) : Vec3 :=
  make_vec3 (v3_0 a - v3_0 b)%S (v3_1 a - v3_1 b)%S (v3_2 a - v3_2 b)%S.

Definition vec3_neg (a : Vec3) : Vec3 :=
  make_vec3 (- v3_0 a)%S (- v3_1 a)%S (- v3_2 a)%S.

Definition vec3_scale (k : T) (a : Vec3) : Vec3 :=
  make_vec3 (k * v3_0 a)%S (k * v3_1 a)%S (k * v3_2 a)%S.

Definition vec2_sub (a b : Vec2) : Vec2 :=
  make_vec2 (v2_0 a - v2_0 b)%S (v2_1 a - v2_1 b)%S.

(** Modelled from the spec: [length] of the missing [Utils.hpp], the
    Euclidean length of a [Vec2]. *)
Definition vec2_length (a : Vec2) : T :=
  s_sqrt (v2_0 a * v2_0 a + v2_1 a * v2_1 a)%S.

(** ** The point-of-interest reducer (main.cpp, lines 26-35 and 66-70) *)

Definition calculate_point_of_interest
    (cornea_center visual_axis_unit_vector : Vec3) (z_shift : T) : Vec3 :=
  let kg := ((z_shift - v3_2 cornea_center) / v3_2 visual_axis_unit_vector)%S in
  vec3_add cornea_center (vec3_scale kg visual_axis_unit_vector).

Definition estimate_screen_point
    (poi : Vec3) (screen_pixel_size_x screen_pixel_size_y : T) : Vec2 :=
  make_vec2 (v3_0 poi / screen_pixel_size_x)%S
            (- v3_1 poi / screen_pixel_size_y)%S.

(** Modelled from the spec: [DefaultGazeEstimationResult], declared in a
    header that is missing from the sources; the two fields are those the
    spec lists and [main.cpp] reads.  It has no field for a failure. *)
Record DefaultGazeEstimationResult : Type := {
  center_of_cornea : Vec3;
  visual_axis : Vec3
}.

Definition result_processor
    (result : DefaultGazeEstimationResult) (z_shift : T) (wcs_offset : Vec3) : Vec3 :=
  vec3_sub
    (calculate_point_of_interest (center_of_cornea result) (visual_axis result) z_shift)
    wcs_offset.

End Vectors.

Arguments Vec2 T : clear implicits.
Arguments Vec3 T : clear implicits.
Arguments DefaultGazeEstimationResult T : clear implicits.

(** ** The camera model

    [PinholeCameraModel] is declared in a header that is not part of the
    sources at hand; [main.cpp] assigns its public fields and calls
    [set_camera_angles], [set_camera_angle_y], [set_camera_angle_z],
    [camera_angle_y], [camera_angle_z] and [rotation_matrix]. *)

(** The matrix type and the composition of three angles into a rotation
    matrix are left open. *)
Class Rotations (T : Type) : Type := {
  Mat3 : Type;
  rotation_of_angles : T -> T -> T -> Mat3
}.

(** [deg_to_rad] of [Utils.hpp], left open as well. *)
Class Angles (T : Type) : Type := {
  deg_to_rad : T -> T
}.

Section Camera.
Context {T : Type} `{Scalar T} `{Rotations T}.

(** Modelled from the spec: the [PinholeCameraModel] class, which is
    missing from the sources.  Principal point, pixel pitch, focal length
    and position are plain data; the three angles are stored, and the
    rotation matrix is a cache that every angle setter recomputes. *)
Record PinholeCameraModel : Type := {
  principal_point_x : T;
  principal_point_y : T;
  pixel_size_cm_x : T;
  pixel_size_cm_y : T;
  effective_focal_length_cm : T;
  position : Vec3 T;
  camera_angle_x : T;
  camera_angle_y : T;
  camera_angle_z : T;
  rotation_matrix : Mat3
}.

(** Modelled from the spec: the angle setters of the missing
    [PinholeCameraModel]: store the angles, recompute the cached matrix. *)
Definition set_camera_angles (c : PinholeCameraModel) (ax ay az : T)
    : PinholeCameraModel :=
  {| principal_point_x := principal_point_x c;
     principal_point_y := principal_point_y c;
     pixel_size_cm_x := pixel_size_cm_x c;
     pixel_size_cm_y := pixel_size_cm_y c;
     effective_focal_length_cm := effective_focal_length_cm c;
     position := position c;
     camera_angle_x := ax;
     camera_angle_y := ay;
     camera_angle_z := az;
     rotation_matrix := rotation_of_angles ax ay az |}.

(** Modelled from the spec: the setter of one angle of the missing
    [PinholeCameraModel]; the other two angles are kept. *)
Definition set_camera_angle_y (c : PinholeCameraModel) (ay : T)
    : PinholeCameraModel :=
  set_camera_angles c (camera_angle_x c) ay (camera_angle_z c).

(** Modelled from the spec: as [set_camera_angle_y], for the third
    angle. *)
Definition set_camera_angle_z (c : PinholeCameraModel) (az : T)
    : PinholeCameraModel :=
  set_camera_angles c (camera_angle_x c) (camera_angle_y c) az.

(** The invariant of the data model: the cached matrix is the one of the
    stored angles. *)
Definition angles_consistent (c : PinholeCameraModel) : Prop :=
  rotation_matrix c
  = rotation_of_angles (camera_angle_x c) (camera_angle_y c) (camera_angle_z c).

(** ** The parameter bundle *)

(** Modelled from the spec: the [EyeAndCameraParameters] struct, declared
    in a header that is missing from the sources; the fields are those the
    spec lists and [main.cpp] assigns.  The spec's invariant: as many
    cameras as the estimator needs (one for the one-camera client). *)
Record EyeAndCameraParameters : Type := {
  alpha : T;
  beta : T;
  R : T;
  K : T;
  n1 : T;
  n2 : T;
  D : T;
  cameras : list PinholeCameraModel;
  light_positions : list (Vec3 T);
  distance_to_camera_estimate : T
}.

End Camera.

Arguments PinholeCameraModel T {_}.
Arguments EyeAndCameraParameters T {_}.

(** ** Memory

    The adapter [vecvec_to_pointer_pointer] and the applicator work on raw
    pointers into the buffers of [std::vector]s.  A buffer is a block of
    cells; a pointer is a block with an offset; a block that has been
    released is absent from the heap, and a read through a pointer into it
    has no defined result ([None]). *)

Abbreviation block := positive.

Record ptr : Type := Ptr { ptr_block : block; ptr_off : nat }.

Inductive cell (T : Type) : Type :=
| Double (x : T)
| Pointer (p : ptr).
Arguments Double {T} x.
Arguments Pointer {T} p.

Abbreviation heap T := (gmap block (list (cell T))).

Section Memory.
Context {T : Type}.

Definition ptr_add (p : ptr) (i : nat) : ptr :=
  Ptr (ptr_block p) (ptr_off p + i).

Definition load (h : heap T) (p : ptr) : option (cell T) :=
  cs ← h !! ptr_block p; cs !! ptr_off p.

(** [variables[i][j]] for [double const* const* variables]. *)
Definition read_variable (h : heap T) (variables : ptr) (i j : nat) : option T :=
  match load h (ptr_add variables i) with
  | Some (Pointer row) =>
      match load h (ptr_add row j) with
      | Some (Double x) => Some x
      | _ => None
      end
  | _ => None
  end.

(** [&v[0]] for a vector whose buffer is block [b]: defined when the
    vector has a first element. *)
Definition address_of_first (h : heap T) (b : block) : option ptr :=
  match h !! b with
  | Some (_ :: _) => Some (Ptr b 0)
  | _ => None
  end.

(** [push_back] on a vector whose buffer is block [b].  The buffer keeps
    its block: growth by reallocation is not modelled. *)
Definition push_back (h : heap T) (b : block) (c : cell T) : heap T :=
  alter (fun cs => cs ++ [c]) b h.

(** A [std::vector<std::vector<double>>] is the list of the buffers of its
    rows; the doubles are in the heap. *)
Definition row_values (h : heap T) (b : block) : option (list T) :=
  cs ← h !! b;
  mapM (fun c => match c with Double x => Some x | Pointer _ => None end) cs.

Definition vecvec_values (h : heap T) (a : list block) : option (list (list T)) :=
  mapM (row_values h) a.

(** The loop of lines 46-49. *)
Fixpoint push_back_rows (h : heap T) (tmp : block) (a : list block)
    : option (heap T) :=
  match a with
  | [] => Some h
  | b :: rest =>
      p ← address_of_first h b;
      push_back_rows (push_back h tmp (Pointer p)) tmp rest
  end.

(** Lines 45-49: the local vector [tmp], in a buffer of its own, filled
    with the addresses of the first elements of the rows. *)
Definition build_pointer_table (a : list block) (h : heap T)
    : option (block * heap T) :=
  let tmp := fresh (dom h) in
  h1 ← push_back_rows (<[tmp := []]> h) tmp a;
  Some (tmp, h1).

(** main.cpp, lines 44-51.  The function returns [&tmp[0]]; [tmp] is a
    local object, and its buffer is released when the function returns. *)
Definition vecvec_to_pointer_pointer (a : list block) (h : heap T)
    : option (ptr * heap T) :=
  '(tmp, h1) ← build_pointer_table a h;
  ret ← address_of_first h1 tmp;
  Some (ret, delete tmp h1).

(** The table at [variables] holds the rows [rows]: [variables[i][j]] is
    entry [j] of row [i]. *)
Definition points_to_table (h : heap T) (variables : ptr) (rows : list (list T))
    : Prop :=
  forall (i j : nat) (x : T),
    (row ← rows !! i; row !! j) = Some x ->
    read_variable h variables i j = Some x.

End Memory.

(** ** The applicator (main.cpp, lines 53-63) *)

Section Applicator.
Context {T : Type} `{Scalar T} `{Rotations T}.

Definition six_variable_calibration_applicator
    (h : heap T) (params : EyeAndCameraParameters T) (variables : ptr)
    : option (EyeAndCameraParameters T) :=
  v0 ← read_variable h variables 0 0;
  v1 ← read_variable h variables 1 0;
  v2 ← read_variable h variables 2 0;
  v3 ← read_variable h variables 3 0;
  v4 ← read_variable h variables 4 0;
  cam0 ← cameras params !! 0%nat;
  let cams4 := <[0%nat := set_camera_angle_y cam0 v4]> (cameras params) in
  v5 ← read_variable h variables 5 0;
  cam0' ← cams4 !! 0%nat;
  let cams5 := <[0%nat := set_camera_angle_z cam0' v5]> cams4 in
  Some {| alpha := v0; beta := v1; R := v2; K := v3;
          n1 := n1 params; n2 := n2 params; D := D params;
          cameras := cams5;
          light_positions := light_positions params;
          distance_to_camera_estimate := distance_to_camera_estimate params |}.

End Applicator.

(** ** The calibration engine

    [GenericCalibration.hpp] is not part of the sources at hand; [main.cpp]
    only instantiates the class and calls [calibrate]. *)

(** Modelled from the spec: how the search of the missing engine ended. *)
Inductive calibration_status : Type :=
| Converged
| IterationLimit.

Section Engine.
Context {T : Type} `{Scalar T}.
(** The parameter bundle and the observation and result types of the
    estimator the engine is generic over. *)
Context {P I Res : Type}.

Definition shape {A : Type} (v : list (list A)) : list nat :=
  (fun row => List.length row) <$> v.

(** An inclusive range [(low, high)]. *)
Definition valid_bound (b : T * T) : Prop := s_leb b.1 b.2 = true.
Definition in_bound (b : T * T) (x : T) : Prop :=
  s_leb b.1 x = true /\ s_leb x b.2 = true.
Definition within_bounds (bounds : list (list (T * T))) (v : list (list T)) : Prop :=
  Forall2 (Forall2 in_bound) bounds v.

(** What the bounds need of the comparison: the two ends of a valid
    range compare with themselves (on binary64: they are numbers). *)
Class OrderLaws : Prop := {
  s_leb_refl_l : forall a b : T, s_leb a b = true -> s_leb a a = true;
  s_leb_refl_r : forall a b : T, s_leb a b = true -> s_leb b b = true
}.

(** Modelled from the spec: the bound policy of the missing engine.  The
    spec asks for one policy, applied uniformly; this is the clamp. *)
Definition clamp (b : T * T) (x : T) : T :=
  if s_leb b.1 x then (if s_leb x b.2 then x else b.2) else b.1.

Definition clamp_rows (bounds : list (list (T * T))) (v : list (list T))
    : list (list T) :=
  zip_with (zip_with clamp) bounds v.

(** Modelled from the spec: the Euclidean distance between a reduced
    estimate and its target. *)
Definition vec3_distance (a b : Vec3 T) : T :=
  let d := vec3_sub a b in
  s_sqrt (v3_0 d * v3_0 d + v3_1 d * v3_1 d + v3_2 d * v3_2 d)%S.

(** Modelled from the spec: what the missing engine returns, the fitted
    variable vector paired with the status; [evaluated] records the search
    for the statements below. *)
Record calibration_outcome : Type := {
  fitted_values : list (list T);
  status : calibration_status;
  (** every variable vector whose cost was computed, latest first *)
  evaluated : list (list (list T))
}.

Section Calibrate.
Variable estimator : I -> P -> Res.
Variable base_parameters : P.
Variable applicator : P -> list (list T) -> P.
Variable objective_reducer : Res -> Vec3 T.
Variable samples : list (I * Vec3 T).
Variable bounds : list (list (T * T)).
(** The optimisation backend: the value it proposes for scalar [j] of
    row [i] at an iteration, from the best vector so far and its cost. *)
Variable propose : nat -> list (list T) -> T -> nat -> nat -> T.
Variable tolerance : T.

(** Modelled from the spec: the cost of a candidate in the missing
    engine: apply the candidate to the base bundle, estimate every
    sample, reduce, and sum the Euclidean distances to the targets. *)
Definition cost (candidate : list (list T)) : T :=
  let candidate_parameters := applicator base_parameters candidate in
  fold_left
    (fun acc s =>
       (acc + vec3_distance
                (objective_reducer (estimator s.1 candidate_parameters)) s.2)%S)
    samples (s_of_Z 0).

(** Modelled from the spec: the next candidate of the missing engine.  The
    engine only rewrites the scalars of the variable vector. *)
Definition next_candidate (k : nat) (best : list (list T)) (best_cost : T)
    : list (list T) :=
  imap (fun i row => imap (fun j _ => propose k best best_cost i j) row) best.

(** Modelled from the spec: the search of the missing engine.  Each
    candidate is clamped before its cost is computed; the best vector
    is kept; the search ends when the improvement is within the
    tolerance or when the iteration budget is spent, and says which. *)
Fixpoint search (budget k : nat) (best : list (list T)) (best_cost : T)
    (seen : list (list (list T))) : calibration_outcome :=
  match budget with
  | O => {| fitted_values := best; status := IterationLimit; evaluated := seen |}
  | S budget' =>
      let candidate := clamp_rows bounds (next_candidate k best best_cost) in
      let c := cost candidate in
      if s_ltb c best_cost then
        if s_leb (best_cost - c)%S tolerance then
          {| fitted_values := candidate; status := Converged;
             evaluated := candidate :: seen |}
        else search budget' (S k) candidate c (candidate :: seen)
      else search budget' (S k) best best_cost (candidate :: seen)
  end.

(** Modelled from the spec: [GenericCalibration::calibrate], which is
    missing from the sources.  The shapes of the initial values and of
    the bounds are checked; the result is a variable vector (with the
    status of the search), never a parameter bundle. *)
Definition calibrate (max_iterations : nat) (initial_values : list (list T))
    : option calibration_outcome :=
  if decide (shape initial_values = shape bounds) then
    let start := clamp_rows bounds initial_values in
    Some (search max_iterations 0 start (cost start) [start])
  else None.

End Calibrate.
End Engine.

Arguments calibration_outcome T : clear implicits.
Arguments OrderLaws T {_}.

(** ** The one-camera client (main.cpp, lines 72-226) *)

Section OneCamera.
Context {T : Type} `{Scalar T} `{Rotations T} `{Angles T}.
(** [PupilCenterGlintInputs], and [OneCamSphericalGE::estimate]; both are
    declared in headers that are not part of the sources at hand. *)
Context {PupilCenterGlintInputs : Type}.
Variable estimate :
  PupilCenterGlintInputs -> EyeAndCameraParameters T -> DefaultGazeEstimationResult T.

(** Lines 94-95. *)
Definition actual_camera_position : Vec3 T :=
  make_vec3 (dec 245 10) (s_of_Z (-35)) (s_of_Z 10).
Definition wcs_offset : Vec3 T :=
  vec3_neg (make_vec3 (dec 245 10) (s_of_Z (-35)) (s_of_Z 10)).

(** Lines 98-105.  Every field of the camera is assigned before the
    camera is used. *)
Definition onecamera_camera : PinholeCameraModel T :=
  set_camera_angles
    {| principal_point_x := dec 2995 10;
       principal_point_y := dec 3995 10;
       pixel_size_cm_x := (dec 24 10 * dec 1 1000000)%S;
       pixel_size_cm_y := (dec 24 10 * dec 1 1000000)%S;
       effective_focal_length_cm := dec 119144 10000000;
       position := vec3_add actual_camera_position wcs_offset;
       camera_angle_x := s_of_Z 0;
       camera_angle_y := s_of_Z 0;
       camera_angle_z := s_of_Z 0;
       rotation_matrix := rotation_of_angles (s_of_Z 0) (s_of_Z 0) (s_of_Z 0) |}
    (deg_to_rad (s_of_Z 8)) (s_of_Z 0) (s_of_Z 0).

(** Lines 108-110. *)
Definition onecamera_lights : list (Vec3 T) :=
  [] ++ [vec3_add (vec3_add actual_camera_position
                     (make_vec3 (s_of_Z 13) (s_of_Z 0) (s_of_Z 0))) wcs_offset]
     ++ [vec3_add (vec3_add actual_camera_position
                     (make_vec3 (s_of_Z (-13)) (s_of_Z 0) (s_of_Z 0))) wcs_offset].

(** Lines 84-113. *)
Definition onecamera_parameters : EyeAndCameraParameters T :=
  {| alpha := deg_to_rad (s_of_Z (-5));
     beta := deg_to_rad (dec 15 10);
     R := dec 78 100;
     K := dec 42 100;
     n1 := dec 13375 10000;
     n2 := s_of_Z 1;
     D := dec 53 100;
     cameras := [] ++ [onecamera_camera];
     light_positions := onecamera_lights;
     distance_to_camera_estimate := s_of_Z 10 |}.

(** Lines 116-124. *)
Definition screen_pixel_size_x : T := (dec 487 10 / s_of_Z 1680)%S.
Definition screen_pixel_size_y : T := (dec 274 10 / s_of_Z 1050)%S.
Definition z_shift : T := (- v3_2 actual_camera_position)%S.

(** The world target of a true screen point (lines 135-136). *)
Definition world_target (true_pog : Vec2 T) (sx sy : T) : Vec3 T :=
  make_vec3 (v2_0 true_pog * sx)%S (- v2_1 true_pog * sy)%S (s_of_Z 0).

(** Lines 131-137. *)
Definition calibrate_against
    (calibration_data : list (PupilCenterGlintInputs * Vec2 T))
    : list (PupilCenterGlintInputs * Vec3 T) :=
  fold_left
    (fun acc it =>
       acc ++ [(it.1, world_target it.2 screen_pixel_size_x screen_pixel_size_y)])
    calibration_data [].

(** Lines 139-145. *)
Definition initial_values (parameters : EyeAndCameraParameters T)
    : option (list (list T)) :=
  cam0 ← cameras parameters !! 0%nat;
  Some [ [alpha parameters]; [beta parameters]; [R parameters]; [K parameters];
         [camera_angle_y cam0]; [camera_angle_z cam0] ].

(** Lines 146-153. *)
Definition bounds : list (list (T * T)) :=
  [ [(deg_to_rad (s_of_Z (-10)), deg_to_rad (s_of_Z 10))];
    [(deg_to_rad (s_of_Z (-5)), deg_to_rad (s_of_Z 5))];
    [(dec 3 10, dec 20 10)];
    [(dec 2 10, dec 15 10)];
    [(deg_to_rad (s_of_Z (-8)), deg_to_rad (s_of_Z 8))];
    [(deg_to_rad (s_of_Z (-5)), deg_to_rad (s_of_Z 5))] ].

(** Line 161: the calibration result, a vector of vectors whose rows are
    the buffers [calibration_result], goes through the adapter and the
    applicator. *)
Definition apply_calibration_result
    (h : heap T) (parameters : EyeAndCameraParameters T)
    (calibration_result : list block) : option (EyeAndCameraParameters T) :=
  '(variables, h') ← vecvec_to_pointer_pointer calibration_result h;
  six_variable_calibration_applicator h' parameters variables.

(** The three vectors the evaluation loop fills. *)
Record evaluation : Type := {
  errors_pixels : list T;
  errors_cm : list T;
  estimates : list (Vec2 T)
}.

(** The body of the loop, lines 181-199. *)
Definition evaluate_sample (parameters : EyeAndCameraParameters T)
    (acc : evaluation) (it : PupilCenterGlintInputs * Vec2 T) : evaluation :=
  let data_in := it.1 in
  let true_pog := it.2 in
  let result := estimate data_in parameters in
  let poi_gecs :=
    calculate_point_of_interest (center_of_cornea result) (visual_axis result) z_shift in
  let poi_wcs := vec3_sub poi_gecs wcs_offset in
  let pos_on_screen :=
    estimate_screen_point poi_wcs screen_pixel_size_x screen_pixel_size_y in
  let delta_pixels := vec2_sub pos_on_screen true_pog in
  let delta_cm :=
    vec2_sub
      (make_vec2 (v2_0 true_pog * screen_pixel_size_x)%S
                 (- v2_1 true_pog * screen_pixel_size_y)%S)
      (make_vec2 (v3_0 poi_wcs) (v3_1 poi_wcs)) in
  {| errors_pixels := errors_pixels acc ++ [vec2_length delta_pixels];
     errors_cm := errors_cm acc ++ [vec2_length delta_cm];
     estimates := estimates acc ++ [pos_on_screen] |}.

(** Lines 176-200. *)
Definition evaluation_loop (parameters : EyeAndCameraParameters T)
    (test_data : list (PupilCenterGlintInputs * Vec2 T)) : evaluation :=
  fold_left (evaluate_sample parameters) test_data
    {| errors_pixels := []; errors_cm := []; estimates := [] |}.

(** [std::accumulate(begin, end, 0.) / static_cast<double>(size)],
    lines 212-213. *)
Definition average (errors : list T) : T :=
  (fold_left s_add errors (s_of_Z 0) / s_of_Z (Z.of_nat (List.length errors)))%S.

Definition avg_error_pixels (parameters : EyeAndCameraParameters T)
    (test_data : list (PupilCenterGlintInputs * Vec2 T)) : T :=
  average (errors_pixels (evaluation_loop parameters test_data)).

Definition avg_error_cm (parameters : EyeAndCameraParameters T)
    (test_data : list (PupilCenterGlintInputs * Vec2 T)) : T :=
  average (errors_cm (evaluation_loop parameters test_data)).

End OneCamera.

(** ** The two-camera client (main.cpp, lines 231-332) *)

Section TwoCamera.
Context {T : Type} `{Scalar T} `{Rotations T}.
(** The observation type and [TwoCamSphericalGE::estimate], declared in a
    header that is not part of the sources at hand. *)
Context {PupilCenterGlintInputs : Type}.
Variable estimate :
  PupilCenterGlintInputs -> EyeAndCameraParameters T -> DefaultGazeEstimationResult T.

(** Line 250. *)
Definition twocamera_wcs_offset : Vec3 T :=
  make_vec3 (s_of_Z 0) (s_of_Z 0) (s_of_Z 0).

(** Line 286. *)
Definition twocamera_z_shift : T := s_of_Z 0.

(** The body of the loop, lines 295-306: only [errors_cm] is filled. *)
Definition evaluate_sample_twocamera (parameters : EyeAndCameraParameters T)
    (errors_cm : list T) (it : PupilCenterGlintInputs * Vec2 T) : list T :=
  let data_in := it.1 in
  let true_pog := it.2 in
  let result := estimate data_in parameters in
  let poi_gecs :=
    calculate_point_of_interest (center_of_cornea result) (visual_axis result)
      twocamera_z_shift in
  let poi_wcs := vec3_sub poi_gecs twocamera_wcs_offset in
  let delta_cm := vec2_sub (make_vec2 (v3_0 poi_wcs) (v3_1 poi_wcs)) true_pog in
  errors_cm ++ [vec2_length delta_cm].

(** Lines 291-309. *)
Definition twocamera_errors_cm (parameters : EyeAndCameraParameters T)
    (test_data : list (PupilCenterGlintInputs * Vec2 T)) : list T :=
  fold_left (evaluate_sample_twocamera parameters) test_data [].

(** Line 320. *)
Definition twocamera_avg_error_cm (parameters : EyeAndCameraParameters T)
    (test_data : list (PupilCenterGlintInputs * Vec2 T)) : T :=
  average (twocamera_errors_cm parameters test_data).

End TwoCamera.

(** ** The timing report (main.cpp, lines 220-221 and 326-327)

    [time_taken_ms] is the integer count of milliseconds of the clock; the
    number of test samples is [test_data.size()]. *)

Section Timing.
Context {T : Type} `{Scalar T}.

Definition time_per_estimate_us (time_taken_ms : Z) (size : nat) : T :=
  (s_of_Z time_taken_ms / s_of_Z (Z.of_nat size) * s_of_Z 1000)%S.

Definition fps_upper_limit (time_per_estimate : T) : T :=
  (s_of_Z 1 / (time_per_estimate / s_of_Z 1000000))%S.

End Timing.

(** ** Instances for running the definitions on examples *)

(** A rotation "matrix" kept symbolic: the triple of angles it is built
    from. *)
Definition symbolic_rotations (T : Type) : Rotations T :=
  {| Mat3 := T * T * T;
     rotation_of_angles ax ay az := (ax, ay, az) |}.

(** One reading of [deg_to_rad] on binary64: [x * pi / 180], with [pi] the
    double nearest to it. *)
Definition float_angles : Angles float :=
  {| deg_to_rad x := (x * 0x1.921fb54442d18p+1 / 180)%float |}.

#[local] Existing Instance symbolic_rotations.
#[local] Existing Instance float_angles.

(** Six rows of one double each, in the buffers [1] to [6]: a calibration
    result as [run_onecamera] holds it. *)
Definition example_result : list block := [1; 2; 3; 4; 5; 6]%positive.

Definition example_rows : list (list float) :=
  [[1]; [2]; [3]; [4]; [5]; [6]]%float.

Definition example_heap : heap float :=
  list_to_map
    [(1%positive, [Double 1%float]); (2%positive, [Double 2%float]);
     (3%positive, [Double 3%float]); (4%positive, [Double 4%float]);
     (5%positive, [Double 5%float]); (6%positive, [Double 6%float])].

(** The same rows with a pointer table that is alive, in buffer [7]. *)
Definition example_heap_with_table : heap float :=
  <[7%positive := (fun r => Pointer (Ptr r 0)) <$> example_result]> example_heap.

(** The bundle of the one-camera client on binary64. *)
Definition example_parameters : EyeAndCameraParameters float :=
  onecamera_parameters.

(** A toy estimator for running the engine: the "bundle" is the variable
    vector itself, and the cornea center is read off its first two rows. *)
Definition example_estimator (obs : float) (p : list (list float))
    : DefaultGazeEstimationResult float :=
  {| center_of_cornea :=
       make_vec3 (default 0%float (row ← p !! 0%nat; row !! 0%nat))
                 (default 0%float (row ← p !! 1%nat; row !! 0%nat)) obs;
     visual_axis := make_vec3 0 0 (-1) |}%float.

(** A backend that always proposes values far above the bounds. *)
Definition example_propose (k : nat) (best : list (list float)) (c : float)
    (i j : nat) : float :=
  (100 + float_of_Z (Z.of_nat k))%float.

Definition example_initial_values : list (list float) :=
  default [] (initial_values example_parameters).

Definition example_calibrate : option (calibration_outcome float) :=
  calibrate example_estimator [] (fun _ rows => rows)
    (fun r => result_processor r z_shift wcs_offset)
    [(50%float, make_vec3 1 2 0)%float] bounds example_propose
    (dec 1 1000000) 5 example_initial_values.

(** Two test samples for the evaluation loop, and an estimator that
    succeeds on the first and returns NaN for the second. *)
Definition example_test_data : list (bool * Vec2 float) :=
  [(true, make_vec2 845 1341); (false, make_vec2 200 200)]%float.

Definition example_estimate (obs : bool) (p : EyeAndCameraParameters float)
    : DefaultGazeEstimationResult float :=
  if obs then
    {| center_of_cornea := make_vec3 0 0 50; visual_axis := make_vec3 0 0 (-1) |}%float
  else
    {| center_of_cornea := make_vec3 nan nan nan;
       visual_axis := make_vec3 nan nan nan |}.

(** [deg_to_rad] in exact arithmetic. *)
Definition real_angles : Angles real :=
  {| deg_to_rad x := (x * PI / 180)%R |}.

#[local] Existing Instance real_angles.



(** The example bundle after the applicator has gone through the live
    table over the rows [1] .. [6]. *)
Definition example_applied_parameters : EyeAndCameraParameters float :=
  default example_parameters
    (six_variable_calibration_applicator
       example_heap_with_table example_parameters (Ptr 7 0)).

(** The initial values of the example bundle as rows in the buffers [1] to
    [6], with a live pointer table in buffer [7]. *)
Definition example_initial_heap : heap float :=
  <[7%positive := (fun r => Pointer (Ptr r 0)) <$> example_result]>
    (list_to_map
       (zip example_result
            ((fun row : list float => (fun x => Double x) <$> row)
               <$> example_initial_values))).

(** A bundle to which no camera has been pushed yet. *)
Definition example_empty_parameters : EyeAndCameraParameters float :=
  {| alpha := alpha example_parameters; beta := beta example_parameters;
     R := R example_parameters; K := K example_parameters;
     n1 := n1 example_parameters; n2 := n2 example_parameters;
     D := D example_parameters; cameras := [];
     light_positions := light_positions example_parameters;
     distance_to_camera_estimate := distance_to_camera_estimate example_parameters |}.

(** ** Binary64 facts

    The specification of the primitive operations ([add_spec], [mul_spec],
    ...) reduces a statement on [float] to one on [spec_float]. *)

(** Infinite or not a number. *)
Definition nonfinite (x : float) : Prop :=
  match Prim2SF x with
  | S754_nan | S754_infinity _ => True
  | _ => False
  end.

(** Plus or minus zero. *)
Definition is_zero (x : float) : Prop :=
  match Prim2SF x with
  | S754_zero _ => True
  | _ => False
  end.

(** Not a number. *)
Definition is_nan (x : float) : Prop := Prim2SF x = S754_nan.

(** An estimate the evaluation cannot use: a visual axis parallel to the
    target plane, or with a third coordinate that is not a number, or an
    infinite or NaN value among the other coordinates of the cornea center
    and of the visual axis. *)
Definition degenerate_result (r : DefaultGazeEstimationResult float) : Prop :=
  is_zero (v3_2 (visual_axis r)) \/
  is_nan (v3_2 (visual_axis r)) \/
  nonfinite (v3_2 (center_of_cornea r)) \/
  nonfinite (v3_0 (center_of_cornea r)) \/
  nonfinite (v3_1 (center_of_cornea r)) \/
  nonfinite (v3_0 (visual_axis r)) \/
  nonfinite (v3_1 (visual_axis r)).

Ltac by_float_cases x y :=
  destruct (Prim2SF x) as [| [|] | |], (Prim2SF y) as [| [|] | |];
  simpl in *; tauto.

(** Two closed binary64 numbers differ. *)
Ltac float_neq :=
  let E := fresh "E" in
  intro E; apply (f_equal Prim2SF) in E; vm_compute in E; discriminate E.

Lemma float_of_SF_nan (x : float) : Prim2SF x = S754_nan -> x = nan.
Proof. intros E. rewrite <- (SF2Prim_Prim2SF x), E. reflexivity. Qed.

Lemma nonfinite_add_l x y : nonfinite x -> nonfinite (x + y)%float.
Proof. unfold nonfinite. rewrite add_spec. by_float_cases x y. Qed.

Lemma nonfinite_add_r x y : nonfinite y -> nonfinite (x + y)%float.
Proof. unfold nonfinite. rewrite add_spec. by_float_cases x y. Qed.

Lemma nonfinite_sub_l x y : nonfinite x -> nonfinite (x - y)%float.
Proof. unfold nonfinite. rewrite sub_spec. by_float_cases x y. Qed.

Lemma nonfinite_sub_r x y : nonfinite y -> nonfinite (x - y)%float.
Proof. unfold nonfinite. rewrite sub_spec. by_float_cases x y. Qed.

Lemma nonfinite_mul_l x y : nonfinite x -> nonfinite (x * y)%float.
Proof. unfold nonfinite. rewrite mul_spec. by_float_cases x y. Qed.

Lemma nonfinite_mul_r x y : nonfinite y -> nonfinite (x * y)%float.
Proof. unfold nonfinite. rewrite mul_spec. by_float_cases x y. Qed.

Lemma nonfinite_div_l x y : nonfinite x -> nonfinite (x / y)%float.
Proof. unfold nonfinite. rewrite div_spec. by_float_cases x y. Qed.

Lemma nonfinite_div_zero x y : is_zero y -> nonfinite (x / y)%float.
Proof. unfold nonfinite, is_zero. rewrite div_spec. by_float_cases x y. Qed.

Lemma nonfinite_opp x : nonfinite x -> nonfinite (- x)%float.
Proof.
  unfold nonfinite. rewrite opp_spec.
  destruct (Prim2SF x) as [| [|] | |]; simpl; tauto.
Qed.

Lemma nonfinite_div_nan x y : is_nan y -> nonfinite (x / y)%float.
Proof.
  unfold nonfinite, is_nan. rewrite div_spec. intros ->.
  destruct (Prim2SF x) as [| [|] | |]; exact I.
Qed.

Lemma nonfinite_sqrt x : nonfinite x -> nonfinite (PrimFloat.sqrt x).
Proof.
  unfold nonfinite. rewrite sqrt_spec.
  destruct (Prim2SF x) as [| [|] | |]; simpl; tauto.
Qed.

Lemma mul_nonfinite_zero x y : nonfinite x -> is_zero y -> (x * y)%float = nan.
Proof.
  unfold nonfinite, is_zero. intros Hx Hy.
  apply float_of_SF_nan. rewrite mul_spec. by_float_cases x y.
Qed.

Lemma add_nan_r x : (x + nan)%float = nan.
Proof.
  apply float_of_SF_nan. rewrite add_spec.
  change (Prim2SF nan) with S754_nan.
  destruct (Prim2SF x) as [| [|] | |]; reflexivity.
Qed.

Lemma sub_nan_l x : (nan - x)%float = nan.
Proof.
  apply float_of_SF_nan. rewrite sub_spec.
  change (Prim2SF nan) with S754_nan. reflexivity.
Qed.

Create HintDb nonfin.

#[local] Hint Resolve nonfinite_add_l nonfinite_add_r nonfinite_sub_l
  nonfinite_sub_r nonfinite_mul_l nonfinite_mul_r nonfinite_div_l
  nonfinite_div_zero nonfinite_div_nan nonfinite_opp nonfinite_sqrt : nonfin.

(** The sign given to the rounding of a product only labels the result. *)
Lemma SFopp_binary_round_aux s m e l :
  SFopp (binary_round_aux prec emax s m e l)
  = binary_round_aux prec emax (negb s) m e l.
Proof.
  unfold binary_round_aux.
  destruct (shr_fexp prec emax m e l) as [mrs' e'].
  destruct (shr_fexp prec emax _ e' loc_Exact) as [mrs'' e''].
  destruct (shr_m mrs''); try reflexivity.
  destruct (Z.leb e'' (Z.sub emax prec)); reflexivity.
Qed.

(** Negation is exact on binary64: two sign flips around a product cancel. *)
Lemma float_opp_mul_opp (a b : float) : (- (- a * b))%float = (a * b)%float.
Proof.
  apply Prim2SF_inj. rewrite opp_spec, !mul_spec, opp_spec.
  destruct (Prim2SF a) as [sa | sa | | sa ma ea],
           (Prim2SF b) as [sb | sb | | sb mb eb];
    simpl; rewrite ?negb_involutive; try reflexivity;
    try (destruct sa, sb; reflexivity).
  unfold SF64mul, SFmul. rewrite SFopp_binary_round_aux.
  destruct sa, sb; reflexivity.
Qed.

(** ** The point of interest *)

(** In exact arithmetic the point of interest lies on the plane
    [z = z_shift], on the line through the cornea center along the visual
    axis. *)
Lemma point_of_interest_exact (c v : Vec3 real) (z : real) :
  v3_2 v <> 0%R ->
  v3_2 (calculate_point_of_interest c v z) = z /\
  exists t : real, calculate_point_of_interest c v z = vec3_add c (vec3_scale t v).
Proof.
  intros Hv. split.
  - destruct c as [c0 c1 c2], v as [v0 v1 v2]. simpl in *. field. exact Hv.
  - eexists. reflexivity.
Qed.

(** Whatever the scalars, the result is the cornea center moved along the
    visual axis by the quotient of line 28. *)
Lemma point_of_interest_on_line `{Scalar T} (c v : Vec3 T) (z : T) :
  calculate_point_of_interest c v z
  = vec3_add c (vec3_scale ((z - v3_2 c) / v3_2 v)%S v).
Proof. reflexivity. Qed.

(** C2, as amended.  The point returned is [c + t*v] with
    [t = (z_shift - c[2]) / v[2]], on any scalars; in exact (real)
    arithmetic and for [v[2] <> 0] its third coordinate is [z_shift], so it
    is the intersection of the line with the plane.  On binary64 the third
    coordinate is [c[2] + t*v[2]] as rounded. *)
Theorem calculate_point_of_interest_intersection :
  (forall (c v : Vec3 real) (z : real),
      v3_2 v <> 0%R ->
      v3_2 (calculate_point_of_interest c v z) = z /\
      exists t : real,
        calculate_point_of_interest c v z = vec3_add c (vec3_scale t v)) /\
  (forall (c v : Vec3 float) (z : float),
      let t := ((z - v3_2 c) / v3_2 v)%float in
      calculate_point_of_interest c v z = vec3_add c (vec3_scale t v) /\
      v3_2 (calculate_point_of_interest c v z) = (v3_2 c + t * v3_2 v)%float).
Proof.
  split.
  - exact point_of_interest_exact.
  - intros c v z t. split; reflexivity.
Qed.

(** The intersection at a concrete line: from [(1, 2, 5)] along
    [(1, 0, -2)] down to the plane [z = 1]. *)
Lemma calculate_point_of_interest_intersection_witness :
  v3_2 (make_vec3 1 0 (-2))%R <> 0%R /\
  v3_2 (calculate_point_of_interest
          (make_vec3 1 2 5)%R (make_vec3 1 0 (-2))%R 1%R) = 1%R.
Proof.
  split.
  - simpl. lra.
  - apply (proj1 calculate_point_of_interest_intersection). simpl. lra.
Defined.

(** C2, as stated, fails on binary64.  With the plane of the client,
    [z_shift = -10], a cornea center at height [50] and an axis whose third
    coordinate is [-0.9], the third coordinate of the result is not [-10]
    (it is [-10.000000000000007]); and from the origin along [(0, 0, 49)]
    to the plane [z = 1] it is [(1/49)*49], which is not [1] (here the sum
    with [c[2] = 0] is exact, so fusing it with the product changes
    nothing). *)
Lemma calculate_point_of_interest_not_on_plane_binary64 :
  let c : Vec3 float := make_vec3 (s_of_Z 0) (s_of_Z 0) (s_of_Z 50) in
  let v : Vec3 float := make_vec3 (s_of_Z 0) (s_of_Z 0) (dec (-9) 10) in
  let z : float := s_of_Z (-10) in
  let c' : Vec3 float := make_vec3 (s_of_Z 0) (s_of_Z 0) (s_of_Z 0) in
  let v' : Vec3 float := make_vec3 (s_of_Z 0) (s_of_Z 0) (s_of_Z 49) in
  (PrimFloat.eqb (v3_2 v) 0 = false /\
   v3_2 (calculate_point_of_interest c v z) <> z) /\
  (PrimFloat.eqb (v3_2 v') 0 = false /\
   v3_2 (calculate_point_of_interest c' v' (s_of_Z 1)) <> s_of_Z 1).
Proof. repeat split; try float_neq; vm_compute; reflexivity. Qed.

(** A visual axis parallel to the plane: the quotient of line 28 has a zero
    divisor, and the third coordinate of the result is not a number. *)
Lemma point_of_interest_parallel (c v : Vec3 float) (z : float) :
  is_zero (v3_2 v) -> v3_2 (calculate_point_of_interest c v z) = nan.
Proof.
  intros Hv. simpl.
  rewrite (mul_nonfinite_zero _ (v3_2 v)); auto using add_nan_r with nonfin.
Qed.

(** ... and the other two coordinates are infinite or not a number. *)
Lemma point_of_interest_parallel_xy (c v : Vec3 float) (z : float) :
  is_zero (v3_2 v) ->
  nonfinite (v3_0 (calculate_point_of_interest c v z)) /\
  nonfinite (v3_1 (calculate_point_of_interest c v z)).
Proof. intros Hv. simpl. split; auto with nonfin. Qed.

(** The point of interest of a degenerate estimate has an infinite or NaN
    coordinate among the two that the screen conversion reads. *)
Lemma point_of_interest_degenerate (r : DefaultGazeEstimationResult float)
    (z : float) :
  degenerate_result r ->
  nonfinite (v3_0 (calculate_point_of_interest
                     (center_of_cornea r) (visual_axis r) z)) \/
  nonfinite (v3_1 (calculate_point_of_interest
                     (center_of_cornea r) (visual_axis r) z)).
Proof.
  unfold degenerate_result. simpl.
  intros [Hz | [Hn | [Hcz | [Hcx | [Hcy | [Hvx | Hvy]]]]]];
    auto 6 with nonfin.
Qed.

(** One turn of the evaluation loop appends one entry to each vector. *)
Lemma evaluate_sample_appends `{Scalar T} `{Rotations T} {I : Type}
    (estimate : I -> EyeAndCameraParameters T -> DefaultGazeEstimationResult T)
    (parameters : EyeAndCameraParameters T) (acc : evaluation) (it : I * Vec2 T) :
  exists e_px e_cm pos,
    evaluate_sample estimate parameters acc it
    = {| errors_pixels := errors_pixels acc ++ [e_px];
         errors_cm := errors_cm acc ++ [e_cm];
         estimates := estimates acc ++ [pos] |}.
Proof. do 3 eexists. reflexivity. Qed.

(** On a degenerate estimate both errors it appends are infinite or not a
    number. *)
Lemma evaluate_sample_degenerate `{Rotations float} {I : Type}
    (estimate : I -> EyeAndCameraParameters float -> DefaultGazeEstimationResult float)
    (parameters : EyeAndCameraParameters float) (acc : evaluation) (it : I * Vec2 float) :
  degenerate_result (estimate it.1 parameters) ->
  exists e_px e_cm pos,
    evaluate_sample estimate parameters acc it
    = {| errors_pixels := errors_pixels acc ++ [e_px];
         errors_cm := errors_cm acc ++ [e_cm];
         estimates := estimates acc ++ [pos] |}
    /\ nonfinite e_px /\ nonfinite e_cm.
Proof.
  intros Hdeg.
  pose proof (point_of_interest_degenerate _ z_shift Hdeg) as Hpoi.
  do 3 eexists. split; [reflexivity |].
  split; unfold vec2_length, vec2_sub, estimate_screen_point, vec3_sub;
    cbn [v2_0 v2_1 v3_0 v3_1 v3_2];
    cbn [s_add s_sub s_mul s_div s_neg s_sqrt float_scalar];
    destruct Hpoi as [Hx | Hy]; auto 10 with nonfin.
Qed.

(** C9.  [calculate_point_of_interest] divides by the third coordinate of
    the visual axis without a guard and has no failure result: for an axis
    parallel to the plane (third coordinate [0] or [-0]) it returns a
    vector whose third coordinate is NaN, whatever the other inputs;
    [result_processor] passes the result on, NaN included, and the
    evaluation loop stores sample errors computed from it, which are
    infinite or NaN. *)
Theorem calculate_point_of_interest_unguarded :
  (forall (c : Vec3 float) (vx vy z : float),
      v3_2 (calculate_point_of_interest c (make_vec3 vx vy 0%float) z) = nan /\
      v3_2 (calculate_point_of_interest c (make_vec3 vx vy (-0)%float) z) = nan) /\
  (forall (c : Vec3 float) (vx vy z : float) (w : Vec3 float),
      v3_2 (result_processor
              {| center_of_cornea := c; visual_axis := make_vec3 vx vy 0%float |}
              z w) = nan) /\
  (forall (rot : Rotations float) (I : Type)
          (estimate : I -> EyeAndCameraParameters float
                      -> DefaultGazeEstimationResult float)
          (parameters : EyeAndCameraParameters float)
          (acc : evaluation) (it : I * Vec2 float),
      is_zero (v3_2 (visual_axis (estimate it.1 parameters))) ->
      exists e_px e_cm pos,
        evaluate_sample estimate parameters acc it
        = {| errors_pixels := errors_pixels acc ++ [e_px];
             errors_cm := errors_cm acc ++ [e_cm];
             estimates := estimates acc ++ [pos] |}
        /\ nonfinite e_px /\ nonfinite e_cm).
Proof.
  split; [| split].
  - intros c vx vy z. split; apply point_of_interest_parallel; exact I.
  - intros c vx vy z w. unfold result_processor. cbn [center_of_cornea visual_axis].
    unfold vec3_sub. cbn [v3_2].
    rewrite point_of_interest_parallel by exact I. apply sub_nan_l.
  - intros rot I estimate parameters acc it Hz.
    apply evaluate_sample_degenerate. by left.
Qed.

(** ** The screen conversion *)

(** In exact arithmetic the screen conversion undoes the construction of
    the world target. *)
Lemma screen_round_trip_exact (px py sx sy : real) :
  (0 < sx)%R -> (0 < sy)%R ->
  estimate_screen_point (world_target (make_vec2 px py) sx sy) sx sy
  = make_vec2 px py.
Proof.
  intros Hx Hy. unfold estimate_screen_point, world_target.
  cbn [v2_0 v2_1 v3_0 v3_1]. f_equal; simpl; field; lra.
Qed.

(** On binary64 the two sign flips cancel exactly; the product and the
    quotient are rounded. *)
Lemma screen_round_trip_binary64 (px py sx sy : float) :
  estimate_screen_point (world_target (make_vec2 px py) sx sy) sx sy
  = make_vec2 (px * sx / sx)%float (py * sy / sy)%float.
Proof.
  unfold estimate_screen_point, world_target. cbn [v2_0 v2_1 v3_0 v3_1].
  simpl. rewrite float_opp_mul_opp. reflexivity.
Qed.

(** The calibration targets are built by [world_target]. *)
Lemma calibrate_against_targets `{Scalar T} {I : Type} (data : list (I * Vec2 T)) :
  calibrate_against data
  = (fun it => (it.1, world_target it.2 screen_pixel_size_x screen_pixel_size_y))
      <$> data.
Proof.
  unfold calibrate_against.
  enough (forall acc,
    fold_left (fun acc it =>
        acc ++ [(it.1, world_target it.2 screen_pixel_size_x screen_pixel_size_y)])
      data acc
    = acc ++ ((fun it =>
        (it.1, world_target it.2 screen_pixel_size_x screen_pixel_size_y)) <$> data))
    as Hgen by apply (Hgen []).
  induction data as [| it data IH]; intros acc; simpl.
  - by rewrite app_nil_r.
  - rewrite IH, <- app_assoc. reflexivity.
Qed.

(** C10, as amended.  In exact (real) arithmetic, for positive pixel
    sizes, the world target [(px*sx, -py*sy, 0)] of a pixel position is
    converted back to exactly [(px, py)] by [estimate_screen_point].  On
    binary64 the y-axis sign flip cancels exactly as well, and the round
    trip returns [((px*sx)/sx, (py*sy)/sy)], product and quotient rounded.
    The calibration samples are built with this very target map. *)
Theorem screen_world_round_trip :
  (forall px py sx sy : real,
      (0 < sx)%R -> (0 < sy)%R ->
      estimate_screen_point (world_target (make_vec2 px py) sx sy) sx sy
      = make_vec2 px py) /\
  (forall px py sx sy : float,
      estimate_screen_point (world_target (make_vec2 px py) sx sy) sx sy
      = make_vec2 (px * sx / sx)%float (py * sy / sy)%float) /\
  (forall (T : Type) (sc : Scalar T) (I : Type) (data : list (I * Vec2 T)),
      calibrate_against data
      = (fun it => (it.1, world_target it.2 screen_pixel_size_x screen_pixel_size_y))
          <$> data).
Proof.
  split; [exact screen_round_trip_exact |].
  split; [exact screen_round_trip_binary64 |].
  intros T sc I data. apply calibrate_against_targets.
Qed.

(** The round trip of pixel [(840, 525)] with the pixel sizes of the
    client, in exact arithmetic. *)
Lemma screen_world_round_trip_witness :
  estimate_screen_point
    (world_target (make_vec2 840 525)%R screen_pixel_size_x screen_pixel_size_y)
    screen_pixel_size_x screen_pixel_size_y
  = (make_vec2 840 525 : Vec2 real)%R.
Proof.
  apply (proj1 screen_world_round_trip);
    unfold screen_pixel_size_x, screen_pixel_size_y, dec; simpl; lra.
Defined.

(** C10, as stated, fails on binary64: pixel [(3, 3)] with pixel sizes
    [0.1] comes back as [3.0000000000000004] in both coordinates, and with
    the pixel sizes of the client pixel [(19, 3)] does not come back
    either. *)
Lemma screen_world_round_trip_inexact_binary64 :
  let sx : float := dec 1 10 in
  let p := estimate_screen_point
             (world_target (make_vec2 (s_of_Z 3) (s_of_Z 3)) sx sx) sx sx in
  let q := estimate_screen_point
             (world_target (make_vec2 (s_of_Z 19) (s_of_Z 3))
                screen_pixel_size_x screen_pixel_size_y)
             screen_pixel_size_x screen_pixel_size_y in
  (PrimFloat.ltb 0 sx = true /\ v2_0 p <> s_of_Z 3 /\ v2_1 p <> s_of_Z 3) /\
  (PrimFloat.ltb 0 (screen_pixel_size_x : float) = true /\
   PrimFloat.ltb 0 (screen_pixel_size_y : float) = true /\
   v2_0 q <> s_of_Z 19 /\ v2_1 q <> s_of_Z 3).
Proof. repeat split; try float_neq; vm_compute; reflexivity. Qed.

(** ** The camera model *)

(** Every angle setter leaves the cache consistent with the angles. *)
Lemma set_camera_angles_consistent `{Rotations T} (c : PinholeCameraModel T)
    (ax ay az : T) :
  angles_consistent (set_camera_angles c ax ay az).
Proof. reflexivity. Qed.

(** C7.  After [set_camera_angles(ax, ay, az)] the getters return exactly
    the angles that were set, the cached rotation matrix is the one of
    these angles, and the other fields of the camera are untouched; the
    single-angle setters behave alike. *)
Theorem camera_angle_round_trip :
  forall (T : Type) (rot : Rotations T) (c : PinholeCameraModel T) (ax ay az : T),
    let c' := set_camera_angles c ax ay az in
    (camera_angle_x c' = ax /\ camera_angle_y c' = ay /\ camera_angle_z c' = az) /\
    rotation_matrix c' = rotation_of_angles ax ay az /\
    angles_consistent c' /\
    (camera_angle_y (set_camera_angle_y c ay) = ay /\
     camera_angle_z (set_camera_angle_y c ay) = camera_angle_z c /\
     angles_consistent (set_camera_angle_y c ay)) /\
    (camera_angle_z (set_camera_angle_z c az) = az /\
     camera_angle_y (set_camera_angle_z c az) = camera_angle_y c /\
     angles_consistent (set_camera_angle_z c az)) /\
    (position c' = position c /\
     principal_point_x c' = principal_point_x c /\
     principal_point_y c' = principal_point_y c /\
     pixel_size_cm_x c' = pixel_size_cm_x c /\
     pixel_size_cm_y c' = pixel_size_cm_y c /\
     effective_focal_length_cm c' = effective_focal_length_cm c).
Proof. intros. repeat split. Qed.

(** ** The pointer table *)

Section MemoryFacts.
Context {T : Type}.
Implicit Types (h : heap T) (a : list block) (b tmp : block).

Lemma address_of_first_eq h b p :
  address_of_first h b = Some p -> p = Ptr b 0.
Proof.
  unfold address_of_first. destruct (h !! b) as [[| c cs] |]; congruence.
Qed.

Lemma address_of_first_cons h b c cs :
  h !! b = Some (c :: cs) -> address_of_first h b = Some (Ptr b 0).
Proof. unfold address_of_first. by intros ->. Qed.

(** The loop writes to the buffer of [tmp] only, and appends to it the
    address of the first element of each row, in order. *)
Lemma push_back_rows_other h tmp a h1 b :
  push_back_rows h tmp a = Some h1 -> b <> tmp -> h1 !! b = h !! b.
Proof.
  revert h. induction a as [| r a IH]; intros h Hrun Hb; simpl in Hrun.
  - congruence.
  - destruct (address_of_first h r) as [p |]; [| done]. simpl in Hrun.
    rewrite (IH _ Hrun Hb). unfold push_back. by rewrite lookup_alter_ne.
Qed.

Lemma push_back_rows_table h tmp a h1 cs :
  push_back_rows h tmp a = Some h1 ->
  h !! tmp = Some cs ->
  h1 !! tmp = Some (cs ++ ((fun r => Pointer (Ptr r 0)) <$> a)).
Proof.
  revert h cs. induction a as [| r a IH]; intros h cs Hrun Htmp; simpl in Hrun.
  - injection Hrun as <-. by rewrite app_nil_r.
  - destruct (address_of_first h r) as [p |] eqn:Hp; [| done]. simpl in Hrun.
    apply address_of_first_eq in Hp as ->.
    rewrite (IH _ (cs ++ [Pointer (Ptr r 0)]) Hrun).
    + by rewrite <- app_assoc.
    + unfold push_back. by rewrite lookup_alter_eq, Htmp.
Qed.

(** The loop succeeds when every row has a first element. *)
Lemma push_back_rows_defined h tmp a :
  tmp ∉ a ->
  Forall (fun r => exists c cs, h !! r = Some (c :: cs)) a ->
  is_Some (push_back_rows h tmp a).
Proof.
  revert h. induction a as [| r a IH]; intros h Htmp Hrows; simpl.
  - by eexists.
  - apply not_elem_of_cons in Htmp as [Hr Htmp].
    apply Forall_cons in Hrows as [(c & cs & Hc) Hrows].
    rewrite (address_of_first_cons _ _ _ _ Hc). simpl.
    apply IH; [done |].
    eapply Forall_impl; [exact Hrows |].
    intros r' (c' & cs' & Hc'). unfold push_back.
    destruct (decide (r' = tmp)) as [-> | Hne].
    + rewrite lookup_alter_eq, Hc'. simpl. by eexists _, _.
    + rewrite lookup_alter_ne by done. by eexists _, _.
Qed.

Lemma build_pointer_table_spec a h tmp h1 :
  build_pointer_table a h = Some (tmp, h1) ->
  tmp = fresh (dom h) /\ h !! tmp = None /\
  h1 !! tmp = Some ((fun r => Pointer (Ptr r 0)) <$> a) /\
  (forall b, b <> tmp -> h1 !! b = h !! b).
Proof.
  unfold build_pointer_table. intros Hrun.
  destruct (push_back_rows _ _ a) as [h2 |] eqn:Hloop; [| done].
  simpl in Hrun. injection Hrun as <- <-.
  split; [done |]. split; [apply not_elem_of_dom, is_fresh |].
  split.
  - apply (push_back_rows_table _ _ _ _ [] Hloop), lookup_insert_eq.
  - intros b Hb. rewrite (push_back_rows_other _ _ _ _ _ Hloop Hb).
    by rewrite lookup_insert_ne.
Qed.

(** Inside the function, before it returns, the table holds the rows:
    entry [i] points at the first element of row [i]. *)
Lemma build_pointer_table_points_to_rows a h tmp h1 rows :
  build_pointer_table a h = Some (tmp, h1) ->
  vecvec_values h a = Some rows ->
  points_to_table h1 (Ptr tmp 0) rows.
Proof.
  intros Hbuild Hrows i j x Hx.
  destruct (build_pointer_table_spec _ _ _ _ Hbuild) as (-> & Hfresh & Htbl & Hother).
  destruct (rows !! i) as [row |] eqn:Hrow; [| done]. simpl in Hx.
  unfold vecvec_values in Hrows. rewrite mapM_Some in Hrows.
  destruct (Forall2_lookup_r _ _ _ _ _ Hrows Hrow) as (r & Hr & Hvals).
  unfold row_values in Hvals.
  destruct (h !! r) as [cs |] eqn:Hcs; [| done]. simpl in Hvals.
  rewrite mapM_Some in Hvals.
  destruct (Forall2_lookup_r _ _ _ _ _ Hvals Hx) as (c & Hc & Hcx).
  destruct c as [y | q]; [| done]. injection Hcx as ->.
  assert (r <> fresh (dom h)) as Hne by (intros ->; congruence).
  unfold read_variable, load, ptr_add. cbn [ptr_block ptr_off].
  rewrite Htbl. simpl. rewrite list_lookup_fmap, Hr. simpl.
  rewrite (Hother _ Hne), Hcs. simpl. by rewrite Hc.
Qed.

(** What the function returns: the address of the released buffer, in a
    heap that is the one it was given. *)
Lemma vecvec_to_pointer_pointer_spec a h ret h' :
  vecvec_to_pointer_pointer a h = Some (ret, h') ->
  ret = Ptr (fresh (dom h)) 0 /\ h' = h /\ h' !! ptr_block ret = None.
Proof.
  unfold vecvec_to_pointer_pointer. intros Hrun.
  destruct (build_pointer_table a h) as [[tmp h1] |] eqn:Hbuild; [| done].
  simpl in Hrun.
  destruct (address_of_first h1 tmp) as [p |] eqn:Hp; [| done].
  simpl in Hrun. injection Hrun as <- <-.
  apply address_of_first_eq in Hp as ->.
  destruct (build_pointer_table_spec _ _ _ _ Hbuild) as (-> & Hfresh & Htbl & Hother).
  split; [done |]. split; [| apply lookup_delete_eq].
  apply map_eq. intros b. destruct (decide (b = fresh (dom h))) as [-> | Hne].
  - by rewrite lookup_delete_eq.
  - rewrite lookup_delete_ne by done. by apply Hother.
Qed.

(** The function does return, for a non-empty vector of non-empty rows. *)
Lemma vecvec_to_pointer_pointer_defined a h :
  a <> [] ->
  Forall (fun r => exists c cs, h !! r = Some (c :: cs)) a ->
  vecvec_to_pointer_pointer a h = Some (Ptr (fresh (dom h)) 0, h).
Proof.
  intros Hne Hrows.
  assert (fresh (dom h) ∉ a) as Hfresh.
  { intros Hin. rewrite Forall_forall in Hrows.
    destruct (Hrows _ Hin) as (c & cs & Hc).
    pose proof (is_fresh (dom h)) as Hf. apply not_elem_of_dom in Hf. congruence. }
  destruct (push_back_rows_defined (<[fresh (dom h) := []]> h) (fresh (dom h)) a Hfresh)
    as [h1 Hloop].
  { eapply Forall_impl; [exact Hrows |]. intros r (c & cs & Hc).
    exists c, cs. rewrite lookup_insert_ne; [done |].
    intros <-. pose proof (is_fresh (dom h)) as Hf.
    apply not_elem_of_dom in Hf. congruence. }
  destruct (vecvec_to_pointer_pointer a h) as [[ret h'] |] eqn:Hrun.
  - by destruct (vecvec_to_pointer_pointer_spec _ _ _ _ Hrun) as (-> & -> & _).
  - exfalso. unfold vecvec_to_pointer_pointer, build_pointer_table in Hrun.
    rewrite Hloop in Hrun. simpl in Hrun.
    pose proof (push_back_rows_table _ _ _ _ [] Hloop (lookup_insert_eq _ _ _)) as Htbl.
    unfold address_of_first in Hrun. rewrite Htbl in Hrun.
    destruct a as [| r a]; [done |]. simpl in Hrun. done.
Qed.

(** A read through a pointer into a block that is not live is undefined. *)
Lemma read_variable_dead h variables i j :
  h !! ptr_block variables = None -> read_variable h variables i j = None.
Proof.
  intros Hdead. unfold read_variable, load, ptr_add. cbn [ptr_block].
  by rewrite Hdead.
Qed.

End MemoryFacts.

(** ** The applicator *)

Section ApplicatorFacts.
Context {T : Type} `{Rotations T}.

(** The applicator indexes camera 0: on a bundle without cameras it has
    no defined result. *)
Lemma six_variable_calibration_applicator_no_camera
    (h : heap T) (params : EyeAndCameraParameters T) (variables : ptr) :
  cameras params = [] ->
  six_variable_calibration_applicator h params variables = None.
Proof.
  intros Hc. unfold six_variable_calibration_applicator. rewrite Hc.
  repeat (match goal with |- context [read_variable ?a ?b ?c ?d] =>
            destruct (read_variable a b c d) end; simpl; try done).
Qed.

(** Through a table whose block is not live, it has none either. *)
Lemma six_variable_calibration_applicator_dead
    (h : heap T) (params : EyeAndCameraParameters T) (variables : ptr) :
  h !! ptr_block variables = None ->
  six_variable_calibration_applicator h params variables = None.
Proof.
  intros Hdead. unfold six_variable_calibration_applicator.
  by rewrite (read_variable_dead _ _ 0 0 Hdead).
Qed.

End ApplicatorFacts.

(** C1.  For a bundle with a camera 0 (the invariant of the data model for
    the one-camera client) and a table of at least six rows of at least one
    entry each, the applicator returns the base bundle with
    [alpha], [beta], [R], [K] replaced by [variables[0][0]] ..
    [variables[3][0]] and with the y and z angles of camera 0 replaced by
    [variables[4][0]] and [variables[5][0]] (the cached rotation matrix of
    camera 0 following its angles); [n1], [n2], [D], the lights, the
    distance estimate, the other fields of camera 0 and the other cameras
    are those of the base.  The bundle is passed by value: the result is a
    function of the base and the table, and neither the base nor the heap is
    written. *)
Theorem six_variable_calibration_applicator_frame :
  forall (T : Type) (rot : Rotations T) (h : heap T)
         (params : EyeAndCameraParameters T) (variables : ptr)
         (rows more : list (list T)) (v0 v1 v2 v3 v4 v5 : T)
         (r0 r1 r2 r3 r4 r5 : list T)
         (cam0 : PinholeCameraModel T) (cams : list (PinholeCameraModel T)),
    points_to_table h variables rows ->
    rows = (v0 :: r0) :: (v1 :: r1) :: (v2 :: r2) :: (v3 :: r3)
           :: (v4 :: r4) :: (v5 :: r5) :: more ->
    cameras params = cam0 :: cams ->
    six_variable_calibration_applicator h params variables
    = Some {| alpha := v0; beta := v1; R := v2; K := v3;
              n1 := n1 params; n2 := n2 params; D := D params;
              cameras :=
                {| principal_point_x := principal_point_x cam0;
                   principal_point_y := principal_point_y cam0;
                   pixel_size_cm_x := pixel_size_cm_x cam0;
                   pixel_size_cm_y := pixel_size_cm_y cam0;
                   effective_focal_length_cm := effective_focal_length_cm cam0;
                   position := position cam0;
                   camera_angle_x := camera_angle_x cam0;
                   camera_angle_y := v4;
                   camera_angle_z := v5;
                   rotation_matrix :=
                     rotation_of_angles (camera_angle_x cam0) v4 v5 |} :: cams;
              light_positions := light_positions params;
              distance_to_camera_estimate := distance_to_camera_estimate params |}.
Proof.
  intros T rot h params variables rows more v0 v1 v2 v3 v4 v5
         r0 r1 r2 r3 r4 r5 cam0 cams Htbl -> Hcams.
  unfold six_variable_calibration_applicator.
  rewrite (Htbl 0%nat 0%nat v0), (Htbl 1%nat 0%nat v1), (Htbl 2%nat 0%nat v2),
          (Htbl 3%nat 0%nat v3), (Htbl 4%nat 0%nat v4), (Htbl 5%nat 0%nat v5)
    by reflexivity.
  rewrite Hcams. reflexivity.
Qed.

(** The applicator on the bundle of the client, through a live table over
    the rows [1] .. [6]. *)
Lemma six_variable_calibration_applicator_frame_witness :
  six_variable_calibration_applicator
    example_heap_with_table example_parameters (Ptr 7 0)
  = Some {| alpha := 1%float; beta := 2%float; R := 3%float; K := 4%float;
            n1 := n1 example_parameters; n2 := n2 example_parameters;
            D := D example_parameters;
            cameras :=
              [ {| principal_point_x := dec 2995 10;
                   principal_point_y := dec 3995 10;
                   pixel_size_cm_x := pixel_size_cm_x onecamera_camera;
                   pixel_size_cm_y := pixel_size_cm_y onecamera_camera;
                   effective_focal_length_cm := dec 119144 10000000;
                   position := position onecamera_camera;
                   camera_angle_x := camera_angle_x onecamera_camera;
                   camera_angle_y := 5%float;
                   camera_angle_z := 6%float;
                   rotation_matrix :=
                     (camera_angle_x onecamera_camera, 5, 6)%float |} ];
            light_positions := light_positions example_parameters;
            distance_to_camera_estimate :=
              distance_to_camera_estimate example_parameters |}.
Proof.
  apply (six_variable_calibration_applicator_frame
           float (symbolic_rotations float) example_heap_with_table
           example_parameters (Ptr 7 0) example_rows []
           1 2 3 4 5 6 [] [] [] [] [] [] onecamera_camera [])%float.
  - intros i j x Hx.
    do 6 (destruct i as [| i]; [destruct j as [| j]; [| destruct j; done];
                               injection Hx as <-; reflexivity |]).
    destruct i; done.
  - reflexivity.
  - reflexivity.
Defined.

(** C8, on the code.  [vecvec_to_pointer_pointer] returns the address of
    the buffer of its local vector [tmp], which is released on return: in
    the heap it hands back (the one it was given, so no storage is kept and
    the rows are untouched) the block of the returned pointer is not live,
    every [variables[i][j]] through it is undefined, and so is line 161 of
    [run_onecamera], for every bundle and every calibration result.  The
    rows [example_result] show it: the function returns, the rows hold
    [1] .. [6], and the applicator has no defined result; inside the
    function, before [tmp] is released, the table does hold the rows. *)
Theorem vecvec_to_pointer_pointer_dangling :
  (forall (T : Type) (a : list block) (h : heap T) (ret : ptr) (h' : heap T),
      vecvec_to_pointer_pointer a h = Some (ret, h') ->
      h' = h /\ h' !! ptr_block ret = None /\
      forall i j, read_variable h' ret i j = None) /\
  (forall (T : Type) (rot : Rotations T) (h : heap T)
          (parameters : EyeAndCameraParameters T) (calibration_result : list block),
      apply_calibration_result h parameters calibration_result = None) /\
  (vecvec_values example_heap example_result = Some example_rows /\
   vecvec_to_pointer_pointer example_result example_heap
   = Some (Ptr 7 0, example_heap) /\
   six_variable_calibration_applicator example_heap example_parameters (Ptr 7 0)
   = None) /\
  (forall (T : Type) (a : list block) (h h1 : heap T) (tmp : block)
          (rows : list (list T)),
      build_pointer_table a h = Some (tmp, h1) ->
      vecvec_values h a = Some rows ->
      points_to_table h1 (Ptr tmp 0) rows).
Proof.
  split; [| split; [| split]].
  - intros T a h ret h' Hrun.
    destruct (vecvec_to_pointer_pointer_spec _ _ _ _ Hrun) as (-> & -> & Hdead).
    split; [done |]. split; [done |].
    intros i j. by apply read_variable_dead.
  - intros T rot h parameters a. unfold apply_calibration_result.
    destruct (vecvec_to_pointer_pointer a h) as [[ret h'] |] eqn:Hrun; [| done].
    simpl. destruct (vecvec_to_pointer_pointer_spec _ _ _ _ Hrun) as (_ & _ & Hdead).
    by apply six_variable_calibration_applicator_dead.
  - split; [reflexivity |]. split.
    + rewrite vecvec_to_pointer_pointer_defined; [reflexivity | done |].
      unfold example_result. repeat constructor; by eexists _, _.
    + by apply six_variable_calibration_applicator_dead.
  - intros T a h h1 tmp rows. apply build_pointer_table_points_to_rows.
Qed.

(** ** The calibration engine *)

#[export] Instance real_order_laws : OrderLaws real.
Proof.
  split; intros a b _; simpl; unfold R_leb; destruct (Rle_dec _ _); auto; lra.
Qed.

Lemma SFleb_refl (x : spec_float) : x <> S754_nan -> SFleb x x = true.
Proof.
  intros Hx. unfold SFleb, SFcompare.
  destruct x as [s | s | | s m e]; try done.
  - by destruct s.
  - destruct s; rewrite Z.compare_refl, Pos.compare_cont_refl; reflexivity.
Qed.

#[export] Instance float_order_laws : OrderLaws float.
Proof.
  split; intros a b; simpl; rewrite !leb_spec; intros Hab;
    apply SFleb_refl; intros E; rewrite E in Hab;
    unfold SFleb, SFcompare in Hab; by destruct (Prim2SF _).
Qed.

Section EngineFacts.
Context {T : Type} `{Scalar T} {P I Res : Type}.
Implicit Types (bounds : list (list (T * T))) (v best : list (list T)).

Lemma clamp_in_bound `{!OrderLaws T} (b : T * T) (x : T) :
  valid_bound b -> in_bound b (clamp b x).
Proof.
  unfold valid_bound, in_bound, clamp. intros Hb.
  destruct (s_leb b.1 x) eqn:Hlo; [destruct (s_leb x b.2) eqn:Hhi |].
  - done.
  - split; [done | by eapply s_leb_refl_r].
  - split; [by eapply s_leb_refl_l | done].
Qed.

Lemma clamp_row_within `{!OrderLaws T} (bs : list (T * T)) (xs : list T) :
  Forall valid_bound bs -> List.length xs = List.length bs ->
  Forall2 in_bound bs (zip_with clamp bs xs).
Proof.
  intros Hbs. revert xs.
  induction Hbs as [| b bs Hb _ IH]; intros [| x xs] Hlen; simpl in *;
    try done; try constructor; auto using clamp_in_bound.
Qed.

Lemma clamp_rows_within `{!OrderLaws T} bounds v :
  Forall (Forall valid_bound) bounds -> shape v = shape bounds ->
  within_bounds bounds (clamp_rows bounds v).
Proof.
  intros Hbs. revert v.
  induction Hbs as [| bs bounds Hb _ IH]; intros [| xs v] Hshape;
    simpl in *; try done; [constructor |].
  injection Hshape as Hlen Hshape.
  constructor; [by apply clamp_row_within | by apply IH].
Qed.

Lemma clamp_rows_shape bounds v :
  shape v = shape bounds -> shape (clamp_rows bounds v) = shape bounds.
Proof.
  revert v. induction bounds as [| bs bounds IH]; intros [| xs v] Hshape;
    simpl in *; try done.
  injection Hshape as Hlen Hshape. f_equal; [| by apply IH].
  rewrite length_zip_with. lia.
Qed.

Lemma within_bounds_shape bounds v :
  within_bounds bounds v -> shape v = shape bounds.
Proof.
  induction 1 as [| bs xs bounds v Hrow _ IH]; simpl; [done |].
  f_equal; [| done]. symmetry. by eapply Forall2_length.
Qed.

Lemma shape_imap {A B : Type} (f : nat -> list A -> list B) (l : list (list A)) :
  (forall i row, List.length (f i row) = List.length row) ->
  shape (imap f l) = shape l.
Proof.
  revert f. induction l as [| row l IH]; intros f Hf; simpl; [done |].
  f_equal; [apply Hf | apply IH; intros i r; apply Hf].
Qed.

Lemma next_candidate_shape (propose : nat -> list (list T) -> T -> nat -> nat -> T)
    (k : nat) best (c : T) :
  shape (next_candidate propose k best c) = shape best.
Proof.
  unfold next_candidate. apply shape_imap. intros i row. apply length_imap.
Qed.

Section Search.
Variable estimator : I -> P -> Res.
Variable base_parameters : P.
Variable applicator : P -> list (list T) -> P.
Variable objective_reducer : Res -> Vec3 T.
Variable samples : list (I * Vec3 T).
Variable bounds : list (list (T * T)).
Variable propose : nat -> list (list T) -> T -> nat -> nat -> T.
Variable tolerance : T.

Local Abbreviation search' :=
  (search estimator base_parameters applicator objective_reducer samples
          bounds propose tolerance).

(** The shape of the best vector is an invariant of the search. *)
Lemma search_shape (budget k : nat) best (c : T) seen :
  shape best = shape bounds ->
  shape (fitted_values (search' budget k best c seen)) = shape bounds.
Proof.
  revert k best c seen.
  induction budget as [| budget IH]; intros k best c seen Hshape; simpl; [done |].
  assert (shape (clamp_rows bounds (next_candidate propose k best c))
          = shape bounds) as Hcand
    by (apply clamp_rows_shape; by rewrite next_candidate_shape).
  repeat case_match; simpl; auto.
Qed.

(** So is membership in the bounds, of the best vector and of every
    vector whose cost has been computed. *)
Lemma search_within `{!OrderLaws T} (budget k : nat) best (c : T) seen :
  Forall (Forall valid_bound) bounds ->
  within_bounds bounds best ->
  Forall (within_bounds bounds) seen ->
  within_bounds bounds (fitted_values (search' budget k best c seen)) /\
  Forall (within_bounds bounds) (evaluated (search' budget k best c seen)).
Proof.
  intros Hvalid. revert k best c seen.
  induction budget as [| budget IH]; intros k best c seen Hbest Hseen; simpl;
    [done |].
  assert (within_bounds bounds (clamp_rows bounds (next_candidate propose k best c)))
    as Hcand.
  { apply clamp_rows_within; [done |].
    rewrite next_candidate_shape. by apply within_bounds_shape. }
  repeat case_match; simpl; auto.
Qed.

End Search.
End EngineFacts.

(** On the initial values and bounds of matching shape, [calibrate]
    returns a variable vector, with the same number of rows and the same
    row lengths as the initial values (and the status of the search), not
    a parameter bundle; on a mismatch of the shapes it returns nothing. *)
Lemma calibrate_result_shape :
  forall (T : Type) (sc : Scalar T) (P I Res : Type)
         (estimator : I -> P -> Res) (base_parameters : P)
         (applicator : P -> list (list T) -> P)
         (objective_reducer : Res -> Vec3 T) (samples : list (I * Vec3 T))
         (bounds : list (list (T * T)))
         (propose : nat -> list (list T) -> T -> nat -> nat -> T)
         (tolerance : T) (max_iterations : nat) (initial_values : list (list T)),
    (shape initial_values = shape bounds ->
     exists out : calibration_outcome T,
       calibrate estimator base_parameters applicator objective_reducer samples
                 bounds propose tolerance max_iterations initial_values = Some out /\
       shape (fitted_values out) = shape initial_values) /\
    (shape initial_values <> shape bounds ->
     calibrate estimator base_parameters applicator objective_reducer samples
               bounds propose tolerance max_iterations initial_values = None).
Proof.
  intros. unfold calibrate. split; intros Hshape.
  - rewrite decide_True by done. eexists. split; [reflexivity |].
    rewrite Hshape. apply search_shape. by apply clamp_rows_shape.
  - by rewrite decide_False.
Qed.

(** The shapes in the one-camera client: six rows of one scalar, on both
    sides. *)
Lemma onecamera_shapes `{Scalar T} `{Rotations T} `{Angles T} :
  exists iv : list (list T),
    initial_values onecamera_parameters = Some iv /\
    shape iv = [1; 1; 1; 1; 1; 1]%nat /\
    shape (bounds (T := T)) = [1; 1; 1; 1; 1; 1]%nat.
Proof. eexists. split; [reflexivity |]. split; reflexivity. Qed.

(** What line 161 is meant to compute.  While the table of the adapter is
    alive, the applicator through it writes the first entries of the six
    rows of the calibration result into the bundle. *)
Lemma applicator_through_live_table `{Rotations T}
    (a : list block) (h h1 : heap T) (tmp : block)
    (parameters : EyeAndCameraParameters T)
    (v0 v1 v2 v3 v4 v5 : T) (r0 r1 r2 r3 r4 r5 : list T) (more : list (list T))
    (cam0 : PinholeCameraModel T) (cams : list (PinholeCameraModel T)) :
  build_pointer_table a h = Some (tmp, h1) ->
  vecvec_values h a
  = Some ((v0 :: r0) :: (v1 :: r1) :: (v2 :: r2) :: (v3 :: r3)
          :: (v4 :: r4) :: (v5 :: r5) :: more) ->
  cameras parameters = cam0 :: cams ->
  six_variable_calibration_applicator h1 parameters (Ptr tmp 0)
  = Some {| alpha := v0; beta := v1; R := v2; K := v3;
            n1 := n1 parameters; n2 := n2 parameters; D := D parameters;
            cameras := set_camera_angles cam0 (camera_angle_x cam0) v4 v5 :: cams;
            light_positions := light_positions parameters;
            distance_to_camera_estimate :=
              distance_to_camera_estimate parameters |}.
Proof.
  intros Hbuild Hrows Hcams.
  pose proof (build_pointer_table_points_to_rows _ _ _ _ _ Hbuild Hrows) as Htbl.
  unfold six_variable_calibration_applicator.
  rewrite (Htbl 0%nat 0%nat v0), (Htbl 1%nat 0%nat v1), (Htbl 2%nat 0%nat v2),
          (Htbl 3%nat 0%nat v3), (Htbl 4%nat 0%nat v4), (Htbl 5%nat 0%nat v5)
    by reflexivity.
  rewrite Hcams. reflexivity.
Qed.

(** C5, on the code.  On initial values and bounds of matching shape
    [calibrate] returns a variable vector with the number of rows and the
    row lengths of the initial values, and no bundle.  The client holds
    this vector as a vector of vectors and passes it back through the
    adapter and the applicator on line 161; but the table the adapter
    returns is released (the defect of C8), so no bundle is obtained: the
    call has no defined result, for every bundle and every place the
    vector is stored at.  Through the table while it is alive, inside the
    adapter, the applicator does give the bundle with the fitted values. *)
Theorem calibration_result_through_applicator :
  forall (T : Type) (sc : Scalar T) (rot : Rotations T) (P I Res : Type)
         (estimator : I -> P -> Res) (base_parameters : P)
         (applicator : P -> list (list T) -> P)
         (objective_reducer : Res -> Vec3 T) (samples : list (I * Vec3 T))
         (bounds : list (list (T * T)))
         (propose : nat -> list (list T) -> T -> nat -> nat -> T)
         (tolerance : T) (max_iterations : nat) (initial_values : list (list T)),
    shape initial_values = shape bounds ->
    exists out : calibration_outcome T,
      calibrate estimator base_parameters applicator objective_reducer samples
                bounds propose tolerance max_iterations initial_values = Some out /\
      shape (fitted_values out) = shape initial_values /\
      forall (h : heap T) (calibration_result : list block)
             (parameters : EyeAndCameraParameters T),
        vecvec_values h calibration_result = Some (fitted_values out) ->
        apply_calibration_result h parameters calibration_result = None /\
        forall (tmp : block) (h1 : heap T)
               (v0 v1 v2 v3 v4 v5 : T) (r0 r1 r2 r3 r4 r5 : list T)
               (more : list (list T))
               (cam0 : PinholeCameraModel T) (cams : list (PinholeCameraModel T)),
          build_pointer_table calibration_result h = Some (tmp, h1) ->
          fitted_values out
          = (v0 :: r0) :: (v1 :: r1) :: (v2 :: r2) :: (v3 :: r3)
            :: (v4 :: r4) :: (v5 :: r5) :: more ->
          cameras parameters = cam0 :: cams ->
          six_variable_calibration_applicator h1 parameters (Ptr tmp 0)
          = Some {| alpha := v0; beta := v1; R := v2; K := v3;
                    n1 := n1 parameters; n2 := n2 parameters; D := D parameters;
                    cameras :=
                      set_camera_angles cam0 (camera_angle_x cam0) v4 v5 :: cams;
                    light_positions := light_positions parameters;
                    distance_to_camera_estimate :=
                      distance_to_camera_estimate parameters |}.
Proof.
  intros T sc rot P I Res estimator base_parameters applicator objective_reducer
         samples bounds propose tolerance max_iterations initial_values Hshape.
  destruct (proj1 (calibrate_result_shape T sc P I Res estimator base_parameters
                     applicator objective_reducer samples bounds propose
                     tolerance max_iterations initial_values) Hshape)
    as (out & Hout & Hfit).
  exists out. split; [exact Hout |]. split; [exact Hfit |].
  intros h calibration_result parameters Hrows. split.
  - unfold apply_calibration_result.
    destruct (vecvec_to_pointer_pointer calibration_result h)
      as [[ret h'] |] eqn:Hrun; [| done].
    simpl. destruct (vecvec_to_pointer_pointer_spec _ _ _ _ Hrun) as (_ & _ & Hdead).
    by apply six_variable_calibration_applicator_dead.
  - intros tmp h1 v0 v1 v2 v3 v4 v5 r0 r1 r2 r3 r4 r5 more cam0 cams
           Hbuild Hfitted Hcams.
    rewrite Hfitted in Hrows.
    exact (applicator_through_live_table _ _ _ _ _ _ _ _ _ _ _ _ _ _ _ _ _ _ _ _
             Hbuild Hrows Hcams).
Qed.

(** The engine on the initial values and the bounds of the client, its
    result held in the buffers [1] to [6], and the bundle of the client. *)
Lemma calibration_result_through_applicator_witness :
  exists out : calibration_outcome float,
    example_calibrate = Some out /\
    shape (fitted_values out) = shape example_initial_values /\
    vecvec_values example_initial_heap example_result = Some (fitted_values out) /\
    apply_calibration_result example_initial_heap example_parameters example_result
    = None.
Proof.
  destruct (calibration_result_through_applicator float _ _ _ _ _
              example_estimator [] (fun _ rows => rows)
              (fun r => result_processor r z_shift wcs_offset)
              [(50%float, make_vec3 1 2 0)%float] bounds example_propose
              (dec 1 1000000) 5 example_initial_values eq_refl)
    as (out & Hout & Hfit & Hclient).
  exists out. split; [exact Hout |]. split; [exact Hfit |].
  assert (vecvec_values example_initial_heap example_result
          = Some (fitted_values out)) as Hrows.
  { assert (example_calibrate = Some out) as Hc by exact Hout.
    vm_compute in Hc. injection Hc as <-. vm_compute. reflexivity. }
  split; [exact Hrows |].
  exact (proj1 (Hclient example_initial_heap example_result example_parameters Hrows)).
Defined.

(** C3.  For initial values and bounds of matching shape, each bound an
    inclusive range [low <= high], [calibrate] returns, and every scalar of
    the returned vector lies within its bound; so does every scalar of
    every vector whose cost was computed during the search: each candidate
    is clamped before it is evaluated, whatever the backend proposes and
    wherever the cost has its optimum. *)
Theorem calibrate_within_bounds :
  forall (T : Type) (sc : Scalar T) (laws : OrderLaws T) (P I Res : Type)
         (estimator : I -> P -> Res) (base_parameters : P)
         (applicator : P -> list (list T) -> P)
         (objective_reducer : Res -> Vec3 T) (samples : list (I * Vec3 T))
         (bounds : list (list (T * T)))
         (propose : nat -> list (list T) -> T -> nat -> nat -> T)
         (tolerance : T) (max_iterations : nat) (initial_values : list (list T)),
    shape initial_values = shape bounds ->
    Forall (Forall valid_bound) bounds ->
    exists out : calibration_outcome T,
      calibrate estimator base_parameters applicator objective_reducer samples
                bounds propose tolerance max_iterations initial_values = Some out /\
      within_bounds bounds (fitted_values out) /\
      Forall (within_bounds bounds) (evaluated out).
Proof.
  intros T sc laws P I Res estimator base_parameters applicator objective_reducer
         samples bounds propose tolerance max_iterations initial_values
         Hshape Hvalid.
  unfold calibrate. rewrite decide_True by done.
  eexists. split; [reflexivity |].
  assert (within_bounds bounds (clamp_rows bounds initial_values)) as Hstart
    by (by apply clamp_rows_within).
  apply search_within; auto.
Qed.

(** The engine on the initial values and the bounds of the client, with a
    backend that proposes values above every bound. *)
Lemma calibrate_within_bounds_witness :
  exists out : calibration_outcome float,
    example_calibrate = Some out /\
    within_bounds bounds (fitted_values out) /\
    Forall (within_bounds bounds) (evaluated out).
Proof.
  apply (calibrate_within_bounds float _ float_order_laws _ _ _ example_estimator []
           (fun _ rows => rows)
           (fun r => result_processor r z_shift wcs_offset)
           [(50%float, make_vec3 1 2 0)%float] bounds example_propose
           (dec 1 1000000) 5 example_initial_values).
  - reflexivity.
  - repeat constructor.
Defined.

(** ** The scene of the one-camera client *)

Lemma onecamera_geometry_exact (rot : Rotations real) (ang : Angles real) :
  (wcs_offset : Vec3 real) = make_vec3 (- dec 245 10)%R 35%R (-10)%R /\
  position onecamera_camera = make_vec3 0%R 0%R 0%R /\
  onecamera_lights = [make_vec3 13%R 0%R 0%R; make_vec3 (-13)%R 0%R 0%R] /\
  pixel_size_cm_x onecamera_camera = dec 24 10000000 /\
  pixel_size_cm_y onecamera_camera = dec 24 10000000.
Proof.
  unfold wcs_offset, onecamera_lights, onecamera_camera, set_camera_angles,
    actual_camera_position, vec3_add, vec3_neg, dec.
  cbn [position pixel_size_cm_x pixel_size_cm_y v3_0 v3_1 v3_2 app].
  repeat split; repeat f_equal; simpl; lra.
Qed.

Lemma onecamera_geometry_binary64 (rot : Rotations float) (ang : Angles float) :
  (wcs_offset : Vec3 float) = make_vec3 (-24.5)%float 35%float (-10)%float /\
  position onecamera_camera = make_vec3 0%float 0%float 0%float /\
  onecamera_lights
  = [make_vec3 13%float 0%float 0%float; make_vec3 (-13)%float 0%float 0%float] /\
  pixel_size_cm_x onecamera_camera = dec 24 10000000 /\
  pixel_size_cm_y onecamera_camera = dec 24 10000000.
Proof.
  unfold wcs_offset, onecamera_lights, onecamera_camera, set_camera_angles,
    actual_camera_position, vec3_add, vec3_neg.
  cbn [position pixel_size_cm_x pixel_size_cm_y v3_0 v3_1 v3_2 app].
  repeat split; vm_compute; reflexivity.
Qed.

(** C6, as amended.  [run_onecamera] configures a single camera whose
    actual position is [(24.5, -35, 10)] cm and a world offset that is the
    opposite of this position, [(-24.5, 35, -10)], so that the camera sits
    at the origin of the working coordinates; principal point
    [(299.5, 399.5)] px, pixel pitch [2.4e-6] cm in both axes, focal length
    [0.0119144] cm, camera angles [(8 degrees, 0, 0)]; two lights at
    [(13, 0, 0)] and [(-13, 0, 0)], that is +13 cm and -13 cm in x from the
    camera; and [alpha = -5] degrees, [beta = 1.5] degrees, [R = 0.78],
    [K = 0.42], [n1 = 1.3375], [n2 = 1], [D = 0.53], with a distance
    estimate of [10].  The arithmetic holds on the reals and on binary64
    alike. *)
Theorem onecamera_scene_constants :
  (forall (T : Type) (sc : Scalar T) (rot : Rotations T) (ang : Angles T),
      cameras onecamera_parameters = [onecamera_camera] /\
      actual_camera_position = make_vec3 (dec 245 10) (s_of_Z (-35)) (s_of_Z 10) /\
      position onecamera_camera = vec3_add actual_camera_position wcs_offset /\
      principal_point_x onecamera_camera = dec 2995 10 /\
      principal_point_y onecamera_camera = dec 3995 10 /\
      effective_focal_length_cm onecamera_camera = dec 119144 10000000 /\
      camera_angle_x onecamera_camera = deg_to_rad (s_of_Z 8) /\
      camera_angle_y onecamera_camera = s_of_Z 0 /\
      camera_angle_z onecamera_camera = s_of_Z 0 /\
      light_positions onecamera_parameters = onecamera_lights /\
      alpha onecamera_parameters = deg_to_rad (s_of_Z (-5)) /\
      beta onecamera_parameters = deg_to_rad (dec 15 10) /\
      R onecamera_parameters = dec 78 100 /\
      K onecamera_parameters = dec 42 100 /\
      n1 onecamera_parameters = dec 13375 10000 /\
      n2 onecamera_parameters = s_of_Z 1 /\
      D onecamera_parameters = dec 53 100 /\
      distance_to_camera_estimate onecamera_parameters = s_of_Z 10) /\
  (forall (rot : Rotations real) (ang : Angles real),
      (wcs_offset : Vec3 real) = make_vec3 (- dec 245 10)%R 35%R (-10)%R /\
      position onecamera_camera = make_vec3 0%R 0%R 0%R /\
      onecamera_lights = [make_vec3 13%R 0%R 0%R; make_vec3 (-13)%R 0%R 0%R] /\
      pixel_size_cm_x onecamera_camera = dec 24 10000000 /\
      pixel_size_cm_y onecamera_camera = dec 24 10000000) /\
  (forall (rot : Rotations float) (ang : Angles float),
      (wcs_offset : Vec3 float) = make_vec3 (-24.5)%float 35%float (-10)%float /\
      position onecamera_camera = make_vec3 0%float 0%float 0%float /\
      onecamera_lights
      = [make_vec3 13%float 0%float 0%float; make_vec3 (-13)%float 0%float 0%float] /\
      pixel_size_cm_x onecamera_camera = dec 24 10000000 /\
      pixel_size_cm_y onecamera_camera = dec 24 10000000).
Proof.
  split; [| split].
  - intros. repeat split.
  - exact onecamera_geometry_exact.
  - exact onecamera_geometry_binary64.
Qed.

(** C6, as stated, fails: the world offset of the client is not zero (its
    first coordinate is [-24.5]), and the position stored in the camera is
    not [(24.5, -35, 10)] (it is the origin). *)
Lemma onecamera_world_offset_not_zero :
  (wcs_offset : Vec3 float) <> make_vec3 (s_of_Z 0) (s_of_Z 0) (s_of_Z 0) /\
  position (onecamera_camera : PinholeCameraModel float)
  <> make_vec3 (dec 245 10) (s_of_Z (-35)) (s_of_Z 10).
Proof.
  split; intros E; apply (f_equal v3_0) in E; revert E; float_neq.
Qed.

(** ** The evaluation loop *)

Section EvaluationFacts.
Context {T : Type} `{Scalar T} `{Rotations T} {I : Type}.
Variable estimate : I -> EyeAndCameraParameters T -> DefaultGazeEstimationResult T.
Variable parameters : EyeAndCameraParameters T.

(** Every sample adds one entry to each of the three vectors: none is
    left out. *)
Lemma fold_evaluate_sample_lengths (test_data : list (I * Vec2 T)) (acc : evaluation) :
  let out := fold_left (evaluate_sample estimate parameters) test_data acc in
  List.length (errors_pixels out)
    = (List.length (errors_pixels acc) + List.length test_data)%nat /\
  List.length (errors_cm out)
    = (List.length (errors_cm acc) + List.length test_data)%nat /\
  List.length (estimates out)
    = (List.length (estimates acc) + List.length test_data)%nat.
Proof.
  revert acc. induction test_data as [| it test_data IH]; intros acc; simpl.
  - repeat split; lia.
  - destruct (IH (evaluate_sample estimate parameters acc it)) as (Hpx & Hcm & Hes).
    rewrite Hpx, Hcm, Hes. simpl. rewrite !length_app. simpl.
    repeat split; lia.
Qed.

Lemma evaluation_loop_lengths (test_data : list (I * Vec2 T)) :
  let out := evaluation_loop estimate parameters test_data in
  List.length (errors_pixels out) = List.length test_data /\
  List.length (errors_cm out) = List.length test_data /\
  List.length (estimates out) = List.length test_data.
Proof. apply (fold_evaluate_sample_lengths test_data). Qed.

End EvaluationFacts.

(** A sum with an infinite or NaN term, or start, is infinite or NaN. *)
Lemma accumulate_nonfinite (errors : list float) (init : float) :
  nonfinite init \/ Exists nonfinite errors ->
  nonfinite (fold_left PrimFloat.add errors init).
Proof.
  revert init. induction errors as [| e errors IH]; intros init Hn; simpl.
  - destruct Hn as [Hn | Hn]; [done | by apply Exists_nil in Hn].
  - apply IH. destruct Hn as [Hn | Hn]; [left; auto with nonfin |].
    apply Exists_cons in Hn as [He | Hrest]; [left; auto with nonfin | by right].
Qed.

Lemma average_nonfinite (errors : list float) :
  Exists nonfinite errors -> nonfinite (average errors).
Proof.
  intros Hn. unfold average. simpl.
  apply nonfinite_div_l, accumulate_nonfinite. by right.
Qed.

Section EvaluationBinary64.
Context `{Rotations float} {I : Type}.
Variable estimate :
  I -> EyeAndCameraParameters float -> DefaultGazeEstimationResult float.
Variable parameters : EyeAndCameraParameters float.

(** An infinite or NaN error stays in the vectors, and a degenerate
    sample puts one into each. *)
Lemma fold_evaluate_sample_nonfinite (test_data : list (I * Vec2 float))
    (acc : evaluation) :
  (Exists nonfinite (errors_pixels acc) /\ Exists nonfinite (errors_cm acc)) \/
  Exists (fun it => degenerate_result (estimate it.1 parameters)) test_data ->
  let out := fold_left (evaluate_sample estimate parameters) test_data acc in
  Exists nonfinite (errors_pixels out) /\ Exists nonfinite (errors_cm out).
Proof.
  revert acc. induction test_data as [| it test_data IH]; intros acc Hn; simpl.
  - destruct Hn as [Hn | Hn]; [done | by apply Exists_nil in Hn].
  - apply IH. destruct Hn as [[Hpx Hcm] | Hn].
    + left. destruct (evaluate_sample_appends estimate parameters acc it)
        as (e_px & e_cm & pos & ->).
      simpl. split; apply Exists_app; by left.
    + apply Exists_cons in Hn as [Hit | Hrest]; [left | by right].
      destruct (evaluate_sample_degenerate estimate parameters acc it Hit)
        as (e_px & e_cm & pos & -> & Hpx & Hcm).
      simpl. split; apply Exists_app; right; by constructor.
Qed.

Lemma evaluation_loop_nonfinite (test_data : list (I * Vec2 float)) :
  Exists (fun it => degenerate_result (estimate it.1 parameters)) test_data ->
  nonfinite (avg_error_pixels estimate parameters test_data) /\
  nonfinite (avg_error_cm estimate parameters test_data).
Proof.
  intros Hn. unfold avg_error_pixels, avg_error_cm, evaluation_loop.
  destruct (fold_evaluate_sample_nonfinite test_data
              {| errors_pixels := []; errors_cm := []; estimates := [] |})
    as [Hpx Hcm]; [by right |].
  split; by apply average_nonfinite.
Qed.

End EvaluationBinary64.

(** C4, as amended.  The evaluation loop has no notion of a failed
    estimation: every test sample, whatever its estimate, adds one entry to
    [errors_pixels], [errors_cm] and [estimates], and the averages are the
    sums of all the entries divided by their number.  On binary64 a single
    degenerate estimate (a visual axis parallel to the plane, or a NaN, or
    an infinity outside the third coordinate of the axis, in the cornea
    center or the axis) makes both reported averages infinite or NaN. *)
Theorem evaluation_loop_keeps_every_sample :
  (forall (T : Type) (sc : Scalar T) (rot : Rotations T) (I : Type)
          (estimate : I -> EyeAndCameraParameters T -> DefaultGazeEstimationResult T)
          (parameters : EyeAndCameraParameters T) (test_data : list (I * Vec2 T)),
      let out := evaluation_loop estimate parameters test_data in
      (List.length (errors_pixels out) = List.length test_data /\
       List.length (errors_cm out) = List.length test_data /\
       List.length (estimates out) = List.length test_data) /\
      avg_error_pixels estimate parameters test_data
      = (fold_left s_add (errors_pixels out) (s_of_Z 0)
         / s_of_Z (Z.of_nat (List.length test_data)))%S /\
      avg_error_cm estimate parameters test_data
      = (fold_left s_add (errors_cm out) (s_of_Z 0)
         / s_of_Z (Z.of_nat (List.length test_data)))%S) /\
  (forall (rot : Rotations float) (I : Type)
          (estimate : I -> EyeAndCameraParameters float
                      -> DefaultGazeEstimationResult float)
          (parameters : EyeAndCameraParameters float)
          (test_data : list (I * Vec2 float)),
      Exists (fun it => degenerate_result (estimate it.1 parameters)) test_data ->
      nonfinite (avg_error_pixels estimate parameters test_data) /\
      nonfinite (avg_error_cm estimate parameters test_data)).
Proof.
  split.
  - intros T sc rot I estimate parameters test_data out.
    destruct (evaluation_loop_lengths estimate parameters test_data)
      as (Hpx & Hcm & Hes).
    split; [done |]. unfold avg_error_pixels, avg_error_cm, average.
    fold out. fold out in Hpx, Hcm. by rewrite Hpx, Hcm.
  - intros rot I estimate parameters test_data. apply evaluation_loop_nonfinite.
Qed.

(** The two example samples: the second estimate is degenerate, and both
    averages are infinite or NaN. *)
Lemma evaluation_loop_keeps_every_sample_witness :
  nonfinite (avg_error_pixels example_estimate example_parameters example_test_data) /\
  nonfinite (avg_error_cm example_estimate example_parameters example_test_data).
Proof.
  apply (proj2 evaluation_loop_keeps_every_sample).
  apply Exists_cons_tl, Exists_cons_hd. right. left. reflexivity.
Defined.

(** C4, as stated, fails.  Of the two example samples the second has a
    failed estimate (NaN); the loop stores an error for it all the same,
    and both reported averages are NaN, whereas over the sample that
    succeeded alone they are about [0.297] px and [0.00807] cm. *)
Lemma evaluation_loop_propagates_nan :
  let out := evaluation_loop example_estimate example_parameters example_test_data in
  List.length (errors_pixels out) = 2%nat /\
  List.length (errors_cm out) = 2%nat /\
  avg_error_pixels example_estimate example_parameters example_test_data = nan /\
  avg_error_cm example_estimate example_parameters example_test_data = nan /\
  avg_error_pixels example_estimate example_parameters
    [(true, make_vec2 845 1341)%float] <> nan /\
  avg_error_cm example_estimate example_parameters
    [(true, make_vec2 845 1341)%float] <> nan.
Proof.
  repeat split; try float_neq; vm_compute; reflexivity.
Qed.

(** * Further properties of the client *)

(** ** More binary64 facts *)

Lemma float_mul_opp_opp (a b : float) : (- a * - b)%float = (a * b)%float.
Proof.
  apply Prim2SF_inj. rewrite !mul_spec, !opp_spec.
  destruct (Prim2SF a) as [sa | sa | | sa ma ea],
           (Prim2SF b) as [sb | sb | | sb mb eb];
    simpl; try reflexivity; destruct sa, sb; reflexivity.
Qed.

Lemma float_div_opp_r (a b : float) : (a / - b)%float = (- (a / b))%float.
Proof.
  apply Prim2SF_inj. rewrite opp_spec, !div_spec, opp_spec.
  destruct (Prim2SF a) as [sa | sa | | sa ma ea],
           (Prim2SF b) as [sb | sb | | sb mb eb];
    simpl; try reflexivity; try (destruct sa, sb; reflexivity).
  unfold SF64div, SFdiv.
  destruct (SFdiv_core_binary prec emax (Z.pos ma) ea (Z.pos mb) eb) as [[mz ez] lz].
  rewrite SFopp_binary_round_aux. destruct sa, sb; reflexivity.
Qed.

Lemma float_sub_zero (x : float) : (x - 0)%float = x.
Proof.
  apply Prim2SF_inj. rewrite sub_spec.
  change (Prim2SF 0%float) with (S754_zero false).
  destruct (Prim2SF x) as [[|] | [|] | | s m e]; reflexivity.
Qed.

(** A positive divisor, finite or infinite, under zero: the quotient is
    zero. *)
Lemma float_zero_div_pos (c : float) :
  PrimFloat.ltb 0 c = true -> (0 / c)%float = 0%float.
Proof.
  rewrite ltb_spec. intros Hc. apply Prim2SF_inj. rewrite div_spec.
  change (Prim2SF 0%float) with (S754_zero false) in *.
  destruct (Prim2SF c) as [[|] | [|] | | [|] m e]; try discriminate Hc; reflexivity.
Qed.

(** ** The point of interest, continued *)

(** X1.  Reversing the visual axis does not move the point of interest:
    the function intersects the whole line with the plane, not the ray in
    front of the eye.  This holds in exact arithmetic (for an axis that
    meets the plane) and, for every input, exactly on binary64. *)
Theorem point_of_interest_axis_reversal :
  (forall (c v : Vec3 real) (z : real),
      v3_2 v <> 0%R ->
      calculate_point_of_interest c (vec3_neg v) z
      = calculate_point_of_interest c v z) /\
  (forall (c v : Vec3 float) (z : float),
      calculate_point_of_interest c (vec3_neg v) z
      = calculate_point_of_interest c v z).
Proof.
  split.
  - intros [c0 c1 c2] [v0 v1 v2] z Hv. simpl in Hv.
    unfold calculate_point_of_interest, vec3_add, vec3_scale, vec3_neg.
    cbn [v3_0 v3_1 v3_2]. simpl. f_equal; field; auto.
  - intros [c0 c1 c2] [v0 v1 v2] z.
    unfold calculate_point_of_interest, vec3_add, vec3_scale, vec3_neg.
    cbn [v3_0 v3_1 v3_2]. simpl.
    rewrite float_div_opp_r, !float_mul_opp_opp. reflexivity.
Qed.

(** A reversed axis on binary64, towards the plane [z = -10]. *)
Lemma point_of_interest_axis_reversal_witness :
  calculate_point_of_interest
    (make_vec3 1 2 50)%float (vec3_neg (make_vec3 0.5 0.25 (-0.75)))%float (-10)%float
  = calculate_point_of_interest
      (make_vec3 1 2 50)%float (make_vec3 0.5 0.25 (-0.75))%float (-10)%float.
Proof. apply (proj2 point_of_interest_axis_reversal). Defined.

(** X2.  In exact arithmetic the length of the axis does not matter: the
    vector need not be a unit vector. *)
Theorem point_of_interest_axis_scaling (c v : Vec3 real) (z k : real) :
  k <> 0%R -> v3_2 v <> 0%R ->
  calculate_point_of_interest c (vec3_scale k v) z
  = calculate_point_of_interest c v z.
Proof.
  intros Hk Hv. destruct c as [c0 c1 c2], v as [v0 v1 v2]. simpl in Hv.
  unfold calculate_point_of_interest, vec3_add, vec3_scale.
  cbn [v3_0 v3_1 v3_2]. simpl. f_equal; field; auto.
Qed.

Lemma point_of_interest_axis_scaling_witness :
  calculate_point_of_interest (make_vec3 1 2 5)%R
    (vec3_scale 3%R (make_vec3 1 0 (-2))%R) 1%R
  = calculate_point_of_interest (make_vec3 1 2 5)%R (make_vec3 1 0 (-2))%R 1%R.
Proof. apply point_of_interest_axis_scaling; simpl; lra. Defined.

(** ** The evaluation loop, continued *)

Section EvaluationAsMap.
Context {T : Type} `{Scalar T} `{Rotations T} {I : Type}.
Variable estimate : I -> EyeAndCameraParameters T -> DefaultGazeEstimationResult T.
Variable parameters : EyeAndCameraParameters T.

(** What the loop stores for one sample, written with the reducer that the
    calibration is given. *)
Let reduced (it : I * Vec2 T) : Vec3 T :=
  result_processor (estimate it.1 parameters) z_shift wcs_offset.
Let on_screen (it : I * Vec2 T) : Vec2 T :=
  estimate_screen_point (reduced it) screen_pixel_size_x screen_pixel_size_y.
Let error_pixels (it : I * Vec2 T) : T :=
  vec2_length (vec2_sub (on_screen it) it.2).
Let error_cm (it : I * Vec2 T) : T :=
  vec2_length
    (vec2_sub
       (make_vec2 (v2_0 it.2 * screen_pixel_size_x)%S
                  (- v2_1 it.2 * screen_pixel_size_y)%S)
       (make_vec2 (v3_0 (reduced it)) (v3_1 (reduced it)))).

Lemma fold_evaluate_sample_map (test_data : list (I * Vec2 T)) (acc : evaluation) :
  fold_left (evaluate_sample estimate parameters) test_data acc
  = {| errors_pixels := errors_pixels acc ++ (error_pixels <$> test_data);
       errors_cm := errors_cm acc ++ (error_cm <$> test_data);
       estimates := estimates acc ++ (on_screen <$> test_data) |}.
Proof.
  revert acc. induction test_data as [| it test_data IH]; intros acc; simpl.
  - rewrite !app_nil_r. by destruct acc.
  - rewrite IH. simpl. by rewrite <- !app_assoc.
Qed.

Lemma evaluation_loop_map (test_data : list (I * Vec2 T)) :
  evaluation_loop estimate parameters test_data
  = {| errors_pixels := error_pixels <$> test_data;
       errors_cm := error_cm <$> test_data;
       estimates := on_screen <$> test_data |}.
Proof. unfold evaluation_loop. by rewrite fold_evaluate_sample_map. Qed.

End EvaluationAsMap.

(** X3.  The loop keeps the order of the test data, and its inline
    reduction (lines 188-189) is the reducer [result_processor] that the
    calibration is given (line 157): entry [i] of [estimates] is the screen
    point of the reduced estimate of sample [i], and entry [i] of
    [errors_pixels] is its distance to the true point of sample [i]. *)
Theorem evaluation_loop_entries :
  forall (T : Type) (sc : Scalar T) (rot : Rotations T) (I : Type)
         (estimate : I -> EyeAndCameraParameters T -> DefaultGazeEstimationResult T)
         (parameters : EyeAndCameraParameters T)
         (test_data : list (I * Vec2 T)) (i : nat),
    let out := evaluation_loop estimate parameters test_data in
    let on_screen (it : I * Vec2 T) :=
      estimate_screen_point
        (result_processor (estimate it.1 parameters) z_shift wcs_offset)
        screen_pixel_size_x screen_pixel_size_y in
    estimates out !! i = on_screen <$> test_data !! i /\
    errors_pixels out !! i
    = (fun it => vec2_length (vec2_sub (on_screen it) it.2)) <$> test_data !! i.
Proof.
  intros. subst out. rewrite evaluation_loop_map. simpl.
  rewrite !list_lookup_fmap. split; reflexivity.
Qed.

(** X4.  With no test data both averages of the one-camera client are
    [0/0]: NaN on binary64. *)
Theorem averages_of_no_test_data :
  forall (rot : Rotations float) (I : Type)
         (estimate : I -> EyeAndCameraParameters float
                     -> DefaultGazeEstimationResult float)
         (parameters : EyeAndCameraParameters float),
    avg_error_pixels estimate parameters [] = nan /\
    avg_error_cm estimate parameters [] = nan.
Proof. intros. split; vm_compute; reflexivity. Qed.

(** ** Errors in exact arithmetic *)







(** ** Calibration targets and reduced estimates *)

(** X6.  [calibrate_against] keeps the observations, their order and their
    number, and puts every target into the plane [z = 0]. *)
Theorem calibrate_against_keeps_observations :
  forall (T : Type) (sc : Scalar T) (I : Type) (data : list (I * Vec2 T)),
    fst <$> calibrate_against data = fst <$> data /\
    List.length (calibrate_against data) = List.length data /\
    Forall (fun s => v3_2 s.2 = s_of_Z 0) (calibrate_against data) /\
    forall (i : nat) (obs : I) (pog : Vec2 T),
      data !! i = Some (obs, pog) ->
      calibrate_against data !! i
      = Some (obs, make_vec3 (v2_0 pog * screen_pixel_size_x)%S
                             (- v2_1 pog * screen_pixel_size_y)%S (s_of_Z 0)).
Proof.
  intros T sc I data. rewrite calibrate_against_targets.
  split; [| split; [| split]].
  - rewrite <- list_fmap_compose. reflexivity.
  - apply length_fmap.
  - apply Forall_fmap, Forall_true. intros it. reflexivity.
  - intros i obs pog Hi. rewrite list_lookup_fmap, Hi. reflexivity.
Qed.

(** X7.  In exact arithmetic the reduced estimate of the one-camera client
    lies in the plane [z = 0] of the calibration targets, and its distance
    to the target of a true screen point is the error in centimetres that
    the evaluation loop stores for that point. *)
Theorem reduced_estimate_in_target_plane
    (r : DefaultGazeEstimationResult real) (true_pog : Vec2 real) :
  v3_2 (visual_axis r) <> 0%R ->
  let p := result_processor r z_shift wcs_offset in
  v3_2 p = 0%R /\
  vec3_distance p (world_target true_pog screen_pixel_size_x screen_pixel_size_y)
  = vec2_length
      (vec2_sub
         (make_vec2 (v2_0 true_pog * screen_pixel_size_x)%S
                    (- v2_1 true_pog * screen_pixel_size_y)%S)
         (make_vec2 (v3_0 p) (v3_1 p))).
Proof.
  intros Hv p.
  assert (v3_2 p = 0%R) as Hz.
  { subst p. destruct r as [[c0 c1 c2] [v0 v1 v2]]. simpl in *. field. exact Hv. }
  split; [exact Hz |].
  unfold vec3_distance, vec2_length, vec3_sub, vec2_sub, world_target.
  cbn [v2_0 v2_1 v3_0 v3_1 v3_2]. rewrite Hz.
  cbn [s_add s_sub s_mul s_neg s_sqrt s_of_Z real_scalar].
  f_equal. ring.
Qed.

Lemma reduced_estimate_in_target_plane_witness :
  v3_2 (result_processor
          {| center_of_cornea := make_vec3 1 2 50; visual_axis := make_vec3 0 0 (-1) |}%R
          z_shift wcs_offset) = 0%R.
Proof.
  apply (reduced_estimate_in_target_plane
           {| center_of_cornea := make_vec3 1 2 50; visual_axis := make_vec3 0 0 (-1) |}%R
           (make_vec2 0 0)%R).
  simpl. lra.
Defined.

(** X8.  In exact arithmetic the two errors of a sample bound each other
    through the pixel sizes of the screen: the error in centimetres lies
    between the pixel error times the height of a pixel and the pixel error
    times its width. *)
Theorem pixel_error_bounds_cm_error (p : Vec3 real) (true_pog : Vec2 real) :
  let e_px :=
    vec2_length
      (vec2_sub (estimate_screen_point p screen_pixel_size_x screen_pixel_size_y)
                true_pog) in
  let e_cm :=
    vec2_length
      (vec2_sub
         (make_vec2 (v2_0 true_pog * screen_pixel_size_x)%S
                    (- v2_1 true_pog * screen_pixel_size_y)%S)
         (make_vec2 (v3_0 p) (v3_1 p))) in
  (screen_pixel_size_y * e_px <= e_cm)%R /\ (e_cm <= screen_pixel_size_x * e_px)%R.
Proof.
  intros e_px e_cm. subst e_px e_cm.
  destruct p as [p0 p1 p2], true_pog as [t0 t1].
  unfold vec2_length, vec2_sub, estimate_screen_point.
  cbn [v2_0 v2_1 v3_0 v3_1]. cbn [s_add s_sub s_mul s_div s_neg s_sqrt real_scalar].
  set (sx := screen_pixel_size_x). set (sy := screen_pixel_size_y).
  assert (0 < sy <= sx)%R as [Hsy Hsx].
  { subst sx sy. unfold screen_pixel_size_x, screen_pixel_size_y, dec. simpl. lra. }
  set (a := (p0 / sx - t0)%R). set (b := (- p1 / sy - t1)%R).
  replace ((t0 * sx - p0) * (t0 * sx - p0) + (- t1 * sy - p1) * (- t1 * sy - p1))%R
    with (sx * sx * (a * a) + sy * sy * (b * b))%R
    by (subst a b; field; lra).
  pose proof (Rle_0_sqr a) as Ha. pose proof (Rle_0_sqr b) as Hb.
  unfold Rsqr in Ha, Hb.
  assert (forall s : real, (0 < s)%R ->
            (s * R_sqrt.sqrt (a * a + b * b)
             = R_sqrt.sqrt (s * s * (a * a + b * b)))%R) as Hscale.
  { intros s Hs. rewrite sqrt_mult by nra. rewrite sqrt_square by lra. reflexivity. }
  rewrite (Hscale sy Hsy), (Hscale sx) by lra.
  assert (0 <= sy * sy <= sx * sx)%R as [Hs2 Hs1] by nra.
  clear Hscale. generalize dependent (a * a)%R. intros A HA.
  generalize dependent (b * b)%R. intros B HB.
  generalize dependent (sx * sx)%R. intros S1 HS1.
  generalize dependent (sy * sy)%R. intros S2 HS2 HS21.
  split; apply sqrt_le_1_alt; nra.
Qed.

(** ** The pointer table and the applicator, continued *)

Section AdapterEdges.
Context {T : Type}.
Implicit Types (h : heap T) (a : list block).

Lemma push_back_rows_rows h (tmp : block) a (h1 : heap T) :
  push_back_rows h tmp a = Some h1 -> tmp ∉ a ->
  Forall (fun r => exists c cs, h !! r = Some (c :: cs)) a.
Proof.
  revert h. induction a as [| r a IH]; intros h Hrun Htmp; simpl in Hrun.
  - constructor.
  - apply not_elem_of_cons in Htmp as [Hr Htmp].
    destruct (address_of_first h r) as [p |] eqn:Hp; [| done]. simpl in Hrun.
    constructor.
    + unfold address_of_first in Hp.
      destruct (h !! r) as [[| c cs] |]; try done. by exists c, cs.
    + pose proof (IH _ Hrun Htmp) as Hrows.
      rewrite Forall_forall in Hrows. apply Forall_forall. intros r' Hin.
      destruct (Hrows _ Hin) as (c & cs & Hc). unfold push_back in Hc.
      rewrite lookup_alter_ne in Hc by (intros <-; done). by exists c, cs.
Qed.

End AdapterEdges.

(** X9.  For rows that are live vectors, [vecvec_to_pointer_pointer] has a
    defined result exactly when the argument is not empty and no row is
    empty: [&tmp[0]] of an empty table and [&a[i][0]] of an empty row are
    undefined. *)
Theorem vecvec_to_pointer_pointer_defined_iff :
  forall (T : Type) (a : list block) (h : heap T),
    Forall (fun r => is_Some (h !! r)) a ->
    (is_Some (vecvec_to_pointer_pointer a h) <->
     a <> [] /\ Forall (fun r => exists c cs, h !! r = Some (c :: cs)) a).
Proof.
  intros T a h Hlive.
  assert (fresh (dom h) ∉ a) as Hfresh.
  { intros Hin. rewrite Forall_forall in Hlive. destruct (Hlive _ Hin) as [cs Hcs].
    pose proof (is_fresh (dom h)) as Hf. apply not_elem_of_dom in Hf. congruence. }
  split.
  - intros [[ret h'] Hrun]. unfold vecvec_to_pointer_pointer, build_pointer_table in Hrun.
    destruct (push_back_rows _ _ a) as [h1 |] eqn:Hloop; [| done]. simpl in Hrun.
    pose proof (push_back_rows_table _ _ _ _ [] Hloop (lookup_insert_eq _ _ _)) as Htbl.
    split.
    + intros ->. unfold address_of_first in Hrun. rewrite Htbl in Hrun. done.
    + pose proof (push_back_rows_rows _ _ _ _ Hloop Hfresh) as Hrows.
      rewrite Forall_forall in Hrows. apply Forall_forall. intros r Hin.
      destruct (Hrows _ Hin) as (c & cs & Hc).
      rewrite lookup_insert_ne in Hc by (intros <-; done). by exists c, cs.
  - intros [Hne Hrows]. rewrite (vecvec_to_pointer_pointer_defined a h Hne Hrows).
    by eexists.
Qed.

Lemma vecvec_to_pointer_pointer_defined_iff_witness :
  is_Some (vecvec_to_pointer_pointer example_result example_heap) <->
  example_result <> [] /\
  Forall (fun r => exists c cs, example_heap !! r = Some (c :: cs)) example_result.
Proof.
  apply vecvec_to_pointer_pointer_defined_iff.
  unfold example_result. repeat constructor; by eexists.
Defined.

Section ApplicatorEdges.
Context {T : Type} `{Rotations T}.

Lemma read_variable_past_table (h : heap T) (variables : ptr)
    (table : list (cell T)) (i j : nat) :
  h !! ptr_block variables = Some table ->
  (List.length table <= ptr_off variables + i)%nat ->
  read_variable h variables i j = None.
Proof.
  intros Htbl Hlen. unfold read_variable, load, ptr_add. cbn [ptr_block ptr_off].
  rewrite Htbl. simpl. by rewrite lookup_ge_None_2.
Qed.

(** The applicator succeeds only if all six reads and the access to camera
    0 do; its result is then the one of the frame property. *)
Lemma six_variable_calibration_applicator_inv
    (h : heap T) (params params' : EyeAndCameraParameters T) (variables : ptr) :
  six_variable_calibration_applicator h params variables = Some params' ->
  exists v0 v1 v2 v3 v4 v5 cam0 cams,
    read_variable h variables 0 0 = Some v0 /\
    read_variable h variables 1 0 = Some v1 /\
    read_variable h variables 2 0 = Some v2 /\
    read_variable h variables 3 0 = Some v3 /\
    read_variable h variables 4 0 = Some v4 /\
    read_variable h variables 5 0 = Some v5 /\
    cameras params = cam0 :: cams /\
    params' = {| alpha := v0; beta := v1; R := v2; K := v3;
                 n1 := n1 params; n2 := n2 params; D := D params;
                 cameras :=
                   set_camera_angles cam0 (camera_angle_x cam0) v4 v5 :: cams;
                 light_positions := light_positions params;
                 distance_to_camera_estimate :=
                   distance_to_camera_estimate params |}.
Proof.
  unfold six_variable_calibration_applicator. intros Hrun.
  destruct (read_variable h variables 0 0) as [v0 |]; [| done].
  destruct (read_variable h variables 1 0) as [v1 |]; [| done].
  destruct (read_variable h variables 2 0) as [v2 |]; [| done].
  destruct (read_variable h variables 3 0) as [v3 |]; [| done].
  destruct (read_variable h variables 4 0) as [v4 |]; [| done].
  simpl in Hrun. destruct (cameras params) as [| cam0 cams] eqn:Hcams; [done |].
  simpl in Hrun.
  destruct (read_variable h variables 5 0) as [v5 |]; [| done].
  simpl in Hrun. injection Hrun as <-.
  by exists v0, v1, v2, v3, v4, v5, cam0, cams.
Qed.

End ApplicatorEdges.

(** X10.  Through a table of fewer than six rows the applicator has no
    defined result, whatever the bundle: [variables[5]] lies past the end
    of the table. *)
Theorem six_variable_calibration_applicator_short_table :
  forall (T : Type) (rot : Rotations T) (a : list block) (h h1 : heap T)
         (tmp : block) (params : EyeAndCameraParameters T),
    build_pointer_table a h = Some (tmp, h1) ->
    (List.length a < 6)%nat ->
    six_variable_calibration_applicator h1 params (Ptr tmp 0) = None.
Proof.
  intros T rot a h h1 tmp params Hbuild Hlen.
  destruct (build_pointer_table_spec _ _ _ _ Hbuild) as (_ & _ & Htbl & _).
  destruct (six_variable_calibration_applicator h1 params (Ptr tmp 0))
    as [params' |] eqn:Hrun; [| done].
  apply six_variable_calibration_applicator_inv in Hrun
    as (v0 & v1 & v2 & v3 & v4 & v5 & cam0 & cams & _ & _ & _ & _ & _ & H5 & _).
  rewrite (read_variable_past_table h1 (Ptr tmp 0) _ 5 0 Htbl) in H5; [done |].
  rewrite length_fmap. simpl. lia.
Qed.

(** A table of three rows. *)
Lemma six_variable_calibration_applicator_short_table_witness :
  exists (tmp : block) (h1 : heap float),
    build_pointer_table [1; 2; 3]%positive example_heap = Some (tmp, h1) /\
    six_variable_calibration_applicator h1 example_parameters (Ptr tmp 0) = None.
Proof.
  destruct (build_pointer_table [1; 2; 3]%positive example_heap)
    as [[tmp h1] |] eqn:Hbuild; [| vm_compute in Hbuild; discriminate Hbuild].
  exists tmp, h1. split; [reflexivity |].
  apply (six_variable_calibration_applicator_short_table float _
           [1; 2; 3]%positive example_heap h1 tmp example_parameters Hbuild).
  simpl. lia.
Defined.

(** X11.  What the applicator wrote is what the client reads back as
    initial values: after a successful application the six rows of
    [initial_values] are the six scalars [variables[i][0]]. *)
Theorem initial_values_of_applied_variables :
  forall (T : Type) (rot : Rotations T) (h : heap T)
         (params params' : EyeAndCameraParameters T) (variables : ptr),
    six_variable_calibration_applicator h params variables = Some params' ->
    exists v0 v1 v2 v3 v4 v5 : T,
      read_variable h variables 0 0 = Some v0 /\
      read_variable h variables 1 0 = Some v1 /\
      read_variable h variables 2 0 = Some v2 /\
      read_variable h variables 3 0 = Some v3 /\
      read_variable h variables 4 0 = Some v4 /\
      read_variable h variables 5 0 = Some v5 /\
      initial_values params' = Some [[v0]; [v1]; [v2]; [v3]; [v4]; [v5]].
Proof.
  intros T rot h params params' variables Hrun.
  apply six_variable_calibration_applicator_inv in Hrun
    as (v0 & v1 & v2 & v3 & v4 & v5 & cam0 & cams
        & H0 & H1 & H2 & H3 & H4 & H5 & Hcams & ->).
  by exists v0, v1, v2, v3, v4, v5.
Qed.

(** The six scalars of the example table, read back. *)
Lemma initial_values_of_applied_variables_witness :
  exists v0 v1 v2 v3 v4 v5 : float,
    read_variable example_heap_with_table (Ptr 7 0) 0 0 = Some v0 /\
    read_variable example_heap_with_table (Ptr 7 0) 1 0 = Some v1 /\
    read_variable example_heap_with_table (Ptr 7 0) 2 0 = Some v2 /\
    read_variable example_heap_with_table (Ptr 7 0) 3 0 = Some v3 /\
    read_variable example_heap_with_table (Ptr 7 0) 4 0 = Some v4 /\
    read_variable example_heap_with_table (Ptr 7 0) 5 0 = Some v5 /\
    initial_values example_applied_parameters
    = Some [[v0]; [v1]; [v2]; [v3]; [v4]; [v5]].
Proof.
  apply (initial_values_of_applied_variables float _ example_heap_with_table
           example_parameters example_applied_parameters (Ptr 7 0)).
  reflexivity.
Defined.

Lemma set_camera_angles_same `{Rotations T} (c : PinholeCameraModel T) :
  angles_consistent c ->
  set_camera_angles c (camera_angle_x c) (camera_angle_y c) (camera_angle_z c) = c.
Proof.
  unfold angles_consistent, set_camera_angles. destruct c. simpl. by intros <-.
Qed.

(** X12.  Writing back the initial values changes nothing: on a bundle
    whose camera 0 has its rotation matrix consistent with its angles, the
    applicator through a table that holds [initial_values] of the bundle
    returns the bundle itself. *)
Theorem applicator_of_initial_values :
  forall (T : Type) (rot : Rotations T) (h : heap T)
         (params : EyeAndCameraParameters T) (variables : ptr)
         (iv : list (list T)) (cam0 : PinholeCameraModel T),
    initial_values params = Some iv ->
    points_to_table h variables iv ->
    cameras params !! 0%nat = Some cam0 ->
    angles_consistent cam0 ->
    six_variable_calibration_applicator h params variables = Some params.
Proof.
  intros T rot h params variables iv cam0 Hiv Htbl Hcam Hcons.
  unfold initial_values in Hiv. rewrite Hcam in Hiv. simpl in Hiv.
  injection Hiv as <-.
  unfold six_variable_calibration_applicator.
  rewrite (Htbl 0%nat 0%nat (alpha params)), (Htbl 1%nat 0%nat (beta params)),
          (Htbl 2%nat 0%nat (R params)), (Htbl 3%nat 0%nat (K params)),
          (Htbl 4%nat 0%nat (camera_angle_y cam0)),
          (Htbl 5%nat 0%nat (camera_angle_z cam0)) by reflexivity.
  rewrite Hcam. simpl.
  unfold set_camera_angle_y. rewrite (set_camera_angles_same cam0 Hcons).
  rewrite (list_insert_id _ _ _ Hcam), Hcam. simpl.
  unfold set_camera_angle_z. rewrite (set_camera_angles_same cam0 Hcons).
  rewrite (list_insert_id _ _ _ Hcam).
  by destruct params.
Qed.

(** The bundle of the client and a table of its own initial values. *)
Lemma applicator_of_initial_values_witness :
  six_variable_calibration_applicator example_initial_heap example_parameters (Ptr 7 0)
  = Some example_parameters.
Proof.
  apply (applicator_of_initial_values float _ example_initial_heap
           example_parameters (Ptr 7 0) example_initial_values onecamera_camera).
  - reflexivity.
  - intros i j x Hx.
    do 6 (destruct i as [| i]; [destruct j as [| j]; [| destruct j; done];
                               injection Hx as <-; reflexivity |]).
    destruct i; done.
  - reflexivity.
  - reflexivity.
Defined.

(** X13.  A second application forgets the first: the applicator on the
    result of an application gives what it gives on the base, so candidates
    can be applied to any bundle derived from the base. *)
Theorem applicator_overwrites :
  forall (T : Type) (rot : Rotations T) (h1 h2 : heap T)
         (params params1 : EyeAndCameraParameters T) (variables1 variables2 : ptr),
    six_variable_calibration_applicator h1 params variables1 = Some params1 ->
    six_variable_calibration_applicator h2 params1 variables2
    = six_variable_calibration_applicator h2 params variables2.
Proof.
  intros T rot h1 h2 params params1 variables1 variables2 Hrun.
  apply six_variable_calibration_applicator_inv in Hrun
    as (v0 & v1 & v2 & v3 & v4 & v5 & cam0 & cams & _ & _ & _ & _ & _ & _ & Hcams & ->).
  unfold six_variable_calibration_applicator. rewrite Hcams.
  cbn [cameras n1 n2 D light_positions distance_to_camera_estimate].
  destruct (read_variable h2 variables2 0 0); [| done].
  destruct (read_variable h2 variables2 1 0); [| done].
  destruct (read_variable h2 variables2 2 0); [| done].
  destruct (read_variable h2 variables2 3 0); [| done].
  destruct (read_variable h2 variables2 4 0); [| done].
  simpl. destruct (read_variable h2 variables2 5 0); [| done].
  reflexivity.
Qed.

(** The example table applied first, the initial values second. *)
Lemma applicator_overwrites_witness :
  six_variable_calibration_applicator example_initial_heap
    example_applied_parameters (Ptr 7 0)
  = six_variable_calibration_applicator example_initial_heap
      example_parameters (Ptr 7 0).
Proof.
  apply (applicator_overwrites float _ example_heap_with_table example_initial_heap
           example_parameters example_applied_parameters (Ptr 7 0) (Ptr 7 0)).
  reflexivity.
Defined.

(** X14.  On a bundle without cameras neither the initial values nor the
    applicator are defined: both index camera 0. *)
Theorem no_camera_no_variables :
  forall (T : Type) (rot : Rotations T) (h : heap T)
         (params : EyeAndCameraParameters T) (variables : ptr),
    cameras params = [] ->
    initial_values params = None /\
    six_variable_calibration_applicator h params variables = None.
Proof.
  intros T rot h params variables Hc. split.
  - unfold initial_values. by rewrite Hc.
  - by apply six_variable_calibration_applicator_no_camera.
Qed.

(** The bundle of the two-camera client before its cameras are pushed. *)
Lemma no_camera_no_variables_witness :
  initial_values example_empty_parameters = None /\
  six_variable_calibration_applicator example_heap_with_table
    example_empty_parameters (Ptr 7 0) = None.
Proof. apply no_camera_no_variables. reflexivity. Defined.

(** ** The timing report *)

(** X15.  In exact arithmetic, for a run that took some time over at least
    one sample, the reported rate is the number of estimates per second:
    [1000 * size / time_taken_ms]. *)
Theorem fps_upper_limit_is_rate (time_taken_ms : Z) (size : nat) :
  (0 < time_taken_ms)%Z -> (0 < size)%nat ->
  fps_upper_limit (time_per_estimate_us time_taken_ms size)
  = (1000 * INR size / IZR time_taken_ms)%R.
Proof.
  intros Hms Hsize. unfold fps_upper_limit, time_per_estimate_us. simpl.
  rewrite <- INR_IZR_INZ.
  assert (0 < INR size)%R by (apply lt_0_INR; lia).
  assert (0 < IZR time_taken_ms)%R by (apply IZR_lt; lia).
  field. split; lra.
Qed.

Lemma fps_upper_limit_is_rate_witness :
  fps_upper_limit (time_per_estimate_us 250 100) = (1000 * INR 100 / 250)%R.
Proof. apply fps_upper_limit_is_rate; lia. Defined.

(** X16.  On binary64 a run that took less than a millisecond is reported
    with a time of zero per estimate and an infinite rate; there is no
    guard on the division. *)
Theorem fps_upper_limit_of_fast_run (size : nat) :
  PrimFloat.ltb 0 (s_of_Z (Z.of_nat size)) = true ->
  time_per_estimate_us 0 size = 0%float /\
  fps_upper_limit (time_per_estimate_us 0 size : float) = infinity.
Proof.
  intros Hsize. unfold fps_upper_limit, time_per_estimate_us.
  cbn [s_div s_mul float_scalar].
  change (s_of_Z 0 : float) with 0%float.
  rewrite (float_zero_div_pos _ Hsize). split; vm_compute; reflexivity.
Qed.

Lemma fps_upper_limit_of_fast_run_witness :
  fps_upper_limit (time_per_estimate_us 0 9 : float) = infinity.
Proof. apply (fps_upper_limit_of_fast_run 9). vm_compute. reflexivity. Defined.

(** ** The two-camera client *)


(** ** The two-camera client *)

Section TwoCameraFacts.
Context {T : Type} `{Scalar T} `{Rotations T} {I : Type}.
Variable estimate : I -> EyeAndCameraParameters T -> DefaultGazeEstimationResult T.
Variable parameters : EyeAndCameraParameters T.

Let error_cm (it : I * Vec2 T) : T :=
  let p := vec3_sub
             (calculate_point_of_interest
                (center_of_cornea (estimate it.1 parameters))
                (visual_axis (estimate it.1 parameters)) twocamera_z_shift)
             twocamera_wcs_offset in
  vec2_length (vec2_sub (make_vec2 (v3_0 p) (v3_1 p)) it.2).

Lemma fold_evaluate_sample_twocamera (test_data : list (I * Vec2 T)) (acc : list T) :
  fold_left (evaluate_sample_twocamera estimate parameters) test_data acc
  = acc ++ (error_cm <$> test_data).
Proof.
  revert acc. induction test_data as [| it test_data IH]; intros acc; simpl.
  - by rewrite app_nil_r.
  - rewrite IH. unfold evaluate_sample_twocamera. by rewrite <- app_assoc.
Qed.

Lemma twocamera_errors_cm_map (test_data : list (I * Vec2 T)) :
  twocamera_errors_cm estimate parameters test_data = error_cm <$> test_data.
Proof. unfold twocamera_errors_cm. by rewrite fold_evaluate_sample_twocamera. Qed.

End TwoCameraFacts.

(** X17.  In the two-camera client the world offset is zero and taking it
    off changes nothing, on binary64 exactly as on the reals: the loop
    stores, for every sample and in order, the distance between the first
    two coordinates of the point of interest in the plane [z = 0] and the
    true point. *)
Theorem twocamera_errors_are_planar_distances :
  (forall (rot : Rotations float) (I : Type)
          (estimate : I -> EyeAndCameraParameters float
                      -> DefaultGazeEstimationResult float)
          (parameters : EyeAndCameraParameters float)
          (test_data : list (I * Vec2 float)),
      twocamera_errors_cm estimate parameters test_data
      = (fun it =>
           let p := calculate_point_of_interest
                      (center_of_cornea (estimate it.1 parameters))
                      (visual_axis (estimate it.1 parameters)) 0%float in
           vec2_length (vec2_sub (make_vec2 (v3_0 p) (v3_1 p)) it.2))
          <$> test_data) /\
  (forall (rot : Rotations real) (I : Type)
          (estimate : I -> EyeAndCameraParameters real
                      -> DefaultGazeEstimationResult real)
          (parameters : EyeAndCameraParameters real)
          (test_data : list (I * Vec2 real)),
      twocamera_errors_cm estimate parameters test_data
      = (fun it =>
           let p := calculate_point_of_interest
                      (center_of_cornea (estimate it.1 parameters))
                      (visual_axis (estimate it.1 parameters)) 0%R in
           vec2_length (vec2_sub (make_vec2 (v3_0 p) (v3_1 p)) it.2))
          <$> test_data).
Proof.
  split; intros rot I estimate parameters test_data;
    rewrite twocamera_errors_cm_map; apply list_fmap_ext; intros _ it _;
    unfold vec3_sub, twocamera_wcs_offset, twocamera_z_shift;
    cbn [v3_0 v3_1 v3_2]; cbn [s_sub s_of_Z float_scalar real_scalar].
  - change (float_of_Z 0) with 0%float. by rewrite !float_sub_zero.
  - by rewrite !Rminus_0_r.
Qed.

(** X18.  The two-camera loop has no guard either: without test data the
    reported average is [0/0], NaN on binary64, and one degenerate estimate
    among the samples makes it infinite or NaN. *)
Theorem twocamera_average_unguarded :
  forall (rot : Rotations float) (I : Type)
         (estimate : I -> EyeAndCameraParameters float
                     -> DefaultGazeEstimationResult float)
         (parameters : EyeAndCameraParameters float)
         (test_data : list (I * Vec2 float)),
    twocamera_avg_error_cm estimate parameters [] = nan /\
    (Exists (fun it => degenerate_result (estimate it.1 parameters)) test_data ->
     nonfinite (twocamera_avg_error_cm estimate parameters test_data)).
Proof.
  intros rot I estimate parameters test_data. split; [vm_compute; reflexivity |].
  intros Hdeg. unfold twocamera_avg_error_cm. apply average_nonfinite.
  rewrite twocamera_errors_cm_map. apply Exists_fmap.
  eapply Exists_impl; [exact Hdeg |]. intros it Hit.
  pose proof (point_of_interest_degenerate _ twocamera_z_shift Hit) as Hpoi.
  unfold vec2_length, vec2_sub, vec3_sub. cbn [v2_0 v2_1 v3_0 v3_1 v3_2].
  cbn [s_add s_sub s_mul s_sqrt float_scalar].
  destruct Hpoi as [Hx | Hy]; auto 10 with nonfin.
Qed.

Lemma twocamera_average_unguarded_witness :
  nonfinite (twocamera_avg_error_cm example_estimate example_parameters
               example_test_data).
Proof.
  apply (proj2 (twocamera_average_unguarded _ _ example_estimate example_parameters
                  example_test_data)).
  apply Exists_cons_tl, Exists_cons_hd. right. left. reflexivity.
Defined.
